(** * The Twilio / OpenAI realtime relay of [main.py]

    A shallow embedding of [handle_media_stream] and of the functions it
    calls ([send_session_update], [receive_from_twilio], [send_to_twilio],
    [store_conversation]), followed by the properties of the relay.

    Conventions of the embedding.
    - A Python [str] is a [string] whose characters are the code points
      below 256; the [str] methods used by the program ([lower], [strip],
      [split], [replace], [in]) are written out on that range.
    - A value produced by [json.loads] is a [json]; Python's [None] is
      [JNull].
    - The two coroutines run by [asyncio.gather] give up control only at
      their receive and send operations, so the handling of one received
      message is one atomic step; a call is a list of [input]s in the
      order in which the two connections deliver them.
    - [print] appends a structured [log_line] to [stdout]. *)

From Stdlib Require Import String Ascii List ZArith NArith Bool Lia PrimFloat.
Import ListNotations.

Set Warnings "-register-all,-inexact-float".

Local Open Scope string_scope.

(** ** Python [str] operations *)

Module Str.

Definition code (c : ascii) : N := N_of_ascii c.

(** [str.lower] on one code point below 256: A-Z, and the upper-case
    letters of the Latin-1 block (all of 0xC0-0xDE but the sign 0xD7). *)
Definition lower_char (c : ascii) : ascii :=
  let n := code c in
  if ((65 <=? n) && (n <=? 90))%N then ascii_of_N (n + 32)
  else if ((192 <=? n) && (n <=? 222) && negb (n =? 215))%N
       then ascii_of_N (n + 32)
       else c.

Fixpoint lower (s : string) : string :=
  match s with
  | EmptyString => EmptyString
  | String c s' => String (lower_char c) (lower s')
  end.

(** [str.isspace] on one code point below 256. *)
Definition isspace (c : ascii) : bool :=
  let n := code c in
  (((9 <=? n) && (n <=? 13)) || ((28 <=? n) && (n <=? 32))
   || (n =? 133) || (n =? 160))%N.

Definition is_empty (s : string) : bool :=
  match s with EmptyString => true | String _ _ => false end.

Fixpoint lstrip (s : string) : string :=
  match s with
  | EmptyString => EmptyString
  | String c s' => if isspace c then lstrip s' else s
  end.

Fixpoint rstrip (s : string) : string :=
  match s with
  | EmptyString => EmptyString
  | String c s' =>
      let r := rstrip s' in
      if is_empty r && isspace c then EmptyString else String c r
  end.

(** [s.strip()] *)
Definition strip (s : string) : string := lstrip (rstrip s).

(** [sub in s] *)
Fixpoint contains (sub s : string) : bool :=
  if prefix sub s then true
  else match s with
       | EmptyString => false
       | String _ s' => contains sub s'
       end.

(** [s.split(sep)] for a non-empty [sep]: the pieces between the
    occurrences of [sep], found from the left and not overlapping.
    [skip] counts the characters of a found occurrence still to be
    passed over, [cur] is the piece being read. *)
Fixpoint split_from (sep : string) (skip : nat) (cur s : string)
  : list string :=
  match s with
  | EmptyString => [cur]
  | String c s' =>
      match skip with
      | S k => split_from sep k cur s'
      | O =>
          if prefix sep s
          then cur :: split_from sep (String.length sep - 1) EmptyString s'
          else split_from sep 0 (cur ++ String c EmptyString) s'
      end
  end.

Definition split (sep s : string) : list string := split_from sep 0 "" s.

(** [s.replace(old, new)] for one-character [old] and [new]. *)
Fixpoint replace (old new : ascii) (s : string) : string :=
  match s with
  | EmptyString => EmptyString
  | String c s' =>
      String (if Ascii.eqb c old then new else c) (replace old new s')
  end.

(** The line feed an f-string's [\n] stands for. *)
Definition newline : string := String (ascii_of_N 10) EmptyString.

End Str.

(** ** Python values and exceptions *)

(** What [json.loads] returns: [None], [bool], [int], [float], [str],
    [list] and [dict].  A [dict] is the list of its items. *)
Inductive json :=
| JNull
| JBool (b : bool)
| JInt (n : Z)
| JFloat (x : float)
| JStr (s : string)
| JArr (items : list json)
| JObj (items : list (string * json)).

(** The exceptions the relay can meet. *)
Inductive exn :=
| JSONDecodeError
| KeyError (key : string)
| TypeError
| AttributeError
| IndexError
| ValueError
| Base64Error        (* binascii.Error *)
| RuntimeError       (* a send on a connection that is gone *)
| ClientConnectionResetError   (* aiohttp: cannot write to a closing transport *)
| OSError.           (* open() refused by the file system *)

Inductive outcome (A : Type) :=
| Ok (a : A)
| Raise (e : exn).
Arguments Ok {A} a.
Arguments Raise {A} e.

(** A frame as received: its text is JSON or it is not. *)
Inductive wire :=
| NotJson
| Json (j : json).

(** [json.loads(message)], and [openai_message.json()] *)
Definition json_loads (message : wire) : outcome json :=
  match message with
  | NotJson => Raise JSONDecodeError
  | Json j => Ok j
  end.

Fixpoint dict_lookup (items : list (string * json)) (key : string)
  : option json :=
  match items with
  | [] => None
  | (k, v) :: rest => if String.eqb k key then Some v else dict_lookup rest key
  end.

(** [v[key]] with a [str] key: a [dict] is looked up, a [list] or a [str]
    wants an integer index, anything else is not subscriptable. *)
Definition subscript (v : json) (key : string) : outcome json :=
  match v with
  | JObj items =>
      match dict_lookup items key with
      | Some x => Ok x
      | None => Raise (KeyError key)
      end
  | _ => Raise TypeError
  end.

(** [v.get(key, default)]: a method of [dict] only. *)
Definition py_get (v : json) (key : string) (default : json) : outcome json :=
  match v with
  | JObj items =>
      match dict_lookup items key with
      | Some x => Ok x
      | None => Ok default
      end
  | _ => Raise AttributeError
  end.

(** [v == s] for a [str] literal [s] *)
Definition py_eq (v : json) (s : string) : bool :=
  match v with
  | JStr t => String.eqb t s
  | _ => false
  end.

(** [v in l] for a list [l] of [str] literals *)
Definition py_in_list (v : json) (l : list string) : bool :=
  existsb (py_eq v) l.

(** The truth value of [v] in a condition. *)
Definition py_truthy (v : json) : bool :=
  match v with
  | JNull => false
  | JBool b => b
  | JInt n => negb (n =? 0)%Z
  | JFloat x => negb (PrimFloat.eqb x 0%float)
  | JStr s => negb (Str.is_empty s)
  | JArr items => match items with [] => false | _ => true end
  | JObj items => match items with [] => false | _ => true end
  end.

(** [v.lower()], [v.split(sep)]: methods of [str] only. *)
Definition str_lower (v : json) : outcome string :=
  match v with
  | JStr s => Ok (Str.lower s)
  | _ => Raise AttributeError
  end.

Definition str_split (v : json) (sep : string) : outcome (list string) :=
  match v with
  | JStr s => Ok (Str.split sep s)
  | _ => Raise AttributeError
  end.

(** [l[-1]] *)
Definition py_last (l : list string) : outcome string :=
  match l with
  | [] => Raise IndexError
  | x :: rest => Ok (last rest x)
  end.

(** ** [base64.b64decode] and [base64.b64encode] *)

Module Base64.

(** The value of a character of the alphabet A-Z a-z 0-9 + / *)
Definition a2b (c : ascii) : option N :=
  let n := Str.code c in
  if ((65 <=? n) && (n <=? 90))%N then Some (n - 65)%N
  else if ((97 <=? n) && (n <=? 122))%N then Some (n - 71)%N
  else if ((48 <=? n) && (n <=? 57))%N then Some (n + 4)%N
  else if (n =? 43)%N then Some 62%N
  else if (n =? 47)%N then Some 63%N
  else None.

(** The character of a value below 64. *)
Definition b2a (v : N) : ascii :=
  if (v <? 26)%N then ascii_of_N (v + 65)
  else if (v <? 52)%N then ascii_of_N (v + 71)
  else if (v <? 62)%N then ascii_of_N (v - 4)
  else if (v =? 62)%N then "+"%char
  else "/"%char.

(** [binascii.a2b_base64] as [b64decode] calls it (not strict): characters
    outside the alphabet are passed over, a pad that completes a group of
    four ends the input, and input that ends inside a group is an error.
    [quad_pos] is the position in the group, [leftchar] the bits not yet
    written, [pads] the pads seen since the last character. *)
Fixpoint a2b_base64 (s : string) (quad_pos : nat) (leftchar : N)
         (pads : nat) (out : list N) : outcome (list N) :=
  match s with
  | EmptyString =>
      match quad_pos with O => Ok out | _ => Raise Base64Error end
  | String c s' =>
      if Ascii.eqb c "="%char then
        if (2 <=? quad_pos)%nat then
          if (4 <=? quad_pos + S pads)%nat then Ok out
          else a2b_base64 s' quad_pos leftchar (S pads) out
        else a2b_base64 s' quad_pos leftchar pads out
      else
        match a2b c with
        | None => a2b_base64 s' quad_pos leftchar pads out
        | Some v =>
            match quad_pos with
            | 0%nat => a2b_base64 s' 1 v 0 out
            | 1%nat =>
                a2b_base64 s' 2 (N.land v 15) 0
                  (out ++ [N.lor (N.shiftl leftchar 2) (N.shiftr v 4)])
            | 2%nat =>
                a2b_base64 s' 3 (N.land v 3) 0
                  (out ++ [N.lor (N.shiftl leftchar 4) (N.shiftr v 2)])
            | _ =>
                a2b_base64 s' 0 0 0
                  (out ++ [N.lor (N.shiftl leftchar 6) v])
            end
        end
  end.

Definition is_ascii (s : string) : bool :=
  forallb (fun c => (Str.code c <? 128)%N) (list_ascii_of_string s).

(** [base64.b64decode(v)]: a [str] must be ASCII, a value that is neither
    [str] nor bytes is a [TypeError]. *)
Definition b64decode (v : json) : outcome (list N) :=
  match v with
  | JStr s =>
      if is_ascii s then a2b_base64 s 0 0 0 [] else Raise ValueError
  | _ => Raise TypeError
  end.

(** [base64.b64encode(bytes).decode('utf-8')] *)
Fixpoint b64encode (bytes : list N) : string :=
  match bytes with
  | [] => EmptyString
  | [x] =>
      String (b2a (N.shiftr x 2))
        (String (b2a (N.shiftl (N.land x 3) 4)) "==")
  | [x; y] =>
      String (b2a (N.shiftr x 2))
        (String (b2a (N.lor (N.shiftl (N.land x 3) 4) (N.shiftr y 4)))
           (String (b2a (N.shiftl (N.land y 15) 2)) "="))
  | x :: y :: z :: rest =>
      String (b2a (N.shiftr x 2))
        (String (b2a (N.lor (N.shiftl (N.land x 3) 4) (N.shiftr y 4)))
           (String (b2a (N.lor (N.shiftl (N.land y 15) 2) (N.shiftr z 6)))
              (String (b2a (N.land z 63)) (b64encode rest))))
  end.

End Base64.

(** ** The state of one call *)

(** What the program prints. *)
Inductive log_line :=
| ClientConnected
| SendingSessionUpdate (session_update : json)
| IncomingStreamStarted (stream_sid : json)
| ClientDisconnected
| ReceivedEvent (type : json) (response : json)
| SessionUpdated (response : json)
| ErrorProcessingAudio (e : exn)
| AiSays (ai_response : json)
| ErrorInSendToTwilio (e : exn)
| ConversationStored (filename : string).

(** A coroutine handed to [asyncio.gather]. *)
Inductive task :=
| Running
| Returned
| Raised (e : exn).

(** The variables of [handle_media_stream] shared by its two coroutines,
    the two connections, and what the call has sent, printed and written
    so far (oldest first). *)
Record call_state := mkState {
  stream_sid : json;
  client_name : string;
  conversation_log : string;
  openai_closed : bool;           (* openai_ws.closed *)
  twilio_connected : bool;        (* the telephony peer is still there *)
  inbound : task;                 (* receive_from_twilio() *)
  outbound : task;                (* send_to_twilio() *)
  openai_sent : list json;        (* openai_ws.send_json(...) *)
  twilio_sent : list json;        (* websocket.send_json(...) *)
  files : list (string * string); (* open(filename, "w") ... write(...) *)
  stdout : list log_line
}.

Definition set_stream_sid (v : json) (st : call_state) : call_state :=
  mkState v (client_name st) (conversation_log st) (openai_closed st)
    (twilio_connected st) (inbound st) (outbound st) (openai_sent st)
    (twilio_sent st) (files st) (stdout st).

Definition set_client_name (v : string) (st : call_state) : call_state :=
  mkState (stream_sid st) v (conversation_log st) (openai_closed st)
    (twilio_connected st) (inbound st) (outbound st) (openai_sent st)
    (twilio_sent st) (files st) (stdout st).

Definition set_conversation_log (v : string) (st : call_state) : call_state :=
  mkState (stream_sid st) (client_name st) v (openai_closed st)
    (twilio_connected st) (inbound st) (outbound st) (openai_sent st)
    (twilio_sent st) (files st) (stdout st).

Definition set_openai_closed (v : bool) (st : call_state) : call_state :=
  mkState (stream_sid st) (client_name st) (conversation_log st) v
    (twilio_connected st) (inbound st) (outbound st) (openai_sent st)
    (twilio_sent st) (files st) (stdout st).

Definition set_twilio_connected (v : bool) (st : call_state) : call_state :=
  mkState (stream_sid st) (client_name st) (conversation_log st)
    (openai_closed st) v (inbound st) (outbound st) (openai_sent st)
    (twilio_sent st) (files st) (stdout st).

Definition set_inbound (v : task) (st : call_state) : call_state :=
  mkState (stream_sid st) (client_name st) (conversation_log st)
    (openai_closed st) (twilio_connected st) v (outbound st) (openai_sent st)
    (twilio_sent st) (files st) (stdout st).

Definition set_outbound (v : task) (st : call_state) : call_state :=
  mkState (stream_sid st) (client_name st) (conversation_log st)
    (openai_closed st) (twilio_connected st) (inbound st) v (openai_sent st)
    (twilio_sent st) (files st) (stdout st).

Definition set_openai_sent (v : list json) (st : call_state) : call_state :=
  mkState (stream_sid st) (client_name st) (conversation_log st)
    (openai_closed st) (twilio_connected st) (inbound st) (outbound st) v
    (twilio_sent st) (files st) (stdout st).

Definition set_twilio_sent (v : list json) (st : call_state) : call_state :=
  mkState (stream_sid st) (client_name st) (conversation_log st)
    (openai_closed st) (twilio_connected st) (inbound st) (outbound st)
    (openai_sent st) v (files st) (stdout st).

Definition set_files (v : list (string * string)) (st : call_state)
  : call_state :=
  mkState (stream_sid st) (client_name st) (conversation_log st)
    (openai_closed st) (twilio_connected st) (inbound st) (outbound st)
    (openai_sent st) (twilio_sent st) v (stdout st).

Definition set_stdout (v : list log_line) (st : call_state) : call_state :=
  mkState (stream_sid st) (client_name st) (conversation_log st)
    (openai_closed st) (twilio_connected st) (inbound st) (outbound st)
    (openai_sent st) (twilio_sent st) (files st) v.

(** ** Statements: a state and exception monad *)

Definition M (A : Type) : Type := call_state -> outcome A * call_state.

Definition ret {A} (a : A) : M A := fun st => (Ok a, st).

Definition bind {A B} (m : M A) (k : A -> M B) : M B :=
  fun st =>
    match m st with
    | (Ok a, st') => k a st'
    | (Raise e, st') => (Raise e, st')
    end.

Declare Scope py_scope.
Delimit Scope py_scope with py.
Notation "x <- m ;; k" := (bind m (fun x => k))
  (at level 61, m at next level, right associativity) : py_scope.
Notation "m ;; k" := (bind m (fun _ => k))
  (at level 61, right associativity) : py_scope.

(** An expression that may raise. *)
Definition eval {A} (o : outcome A) : M A := fun st => (o, st).

Definition gets {A} (f : call_state -> A) : M A := fun st => (Ok (f st), st).

Definition modify (f : call_state -> call_state) : M unit :=
  fun st => (Ok tt, f st).

Definition pass : M unit := ret tt.

(** [try: body except Exception as e: handler(e)] *)
Definition try_except (body : M unit) (handler : exn -> M unit) : M unit :=
  fun st =>
    match body st with
    | (Ok tt, st') => (Ok tt, st')
    | (Raise e, st') => handler e st'
    end.

Definition print (l : log_line) : M unit :=
  modify (fun st => set_stdout (stdout st ++ [l]) st).

(** [await openai_ws.send_json(msg)].  [link_up] is the state of the
    transport under the AI connection at that moment, which the program
    cannot see: when the peer has gone and no receive has noticed it yet,
    [openai_ws.closed] is still [False] and the send raises. *)
Definition openai_send_json (link_up : bool) (msg : json) : M unit :=
  if link_up
  then modify (fun st => set_openai_sent (openai_sent st ++ [msg]) st)
  else eval (Raise ClientConnectionResetError).

(** [await websocket.send_json(msg)]: raises once the telephony peer has
    gone. *)
Definition twilio_send_json (msg : json) : M unit :=
  fun st =>
    if twilio_connected st
    then (Ok tt, set_twilio_sent (twilio_sent st ++ [msg]) st)
    else (Raise RuntimeError, st).

(** ** The program *)

Local Open Scope py_scope.

Definition SYSTEM_MESSAGE : string :=
  "You are an AI assistant specializing in loan details collection, specifically for Indian clients. "
  ++ "Your task is to interact with the client in a friendly, polite, and culturally appropriate Indian tone. "
  ++ "You should carefully ask for their personal and loan details, such as their name, address, loan amount, loan purpose, "
  ++ "and other relevant details. Use common Indian expressions and ensure that you respond in an approachable, respectful, "
  ++ "and professional manner. If the client uses Hindi, Gujarati, or other Indian languages, you should respond in the same language.".

Definition VOICE : string := "alloy".

Definition LOG_EVENT_TYPES : list string :=
  [ "response.content.done"; "rate_limits.updated"; "response.done";
    "input_audio_buffer.committed"; "input_audio_buffer.speech_stopped";
    "input_audio_buffer.speech_started"; "session.created" ].

(** The initial value of [client_name]. *)
Definition Unknown_Client : string := "Unknown Client".

(** The name of the file [store_conversation] writes. *)
Definition filename_of (client_name : string) : string :=
  if negb (String.eqb client_name Unknown_Client)
  then Str.replace " " "_" client_name ++ "_loan_conversation.txt"
  else "Unknown_Client_loan_conversation.txt".

Definition session_update : json :=
  JObj [ ("type", JStr "session.update");
         ("session",
           JObj [ ("turn_detection", JObj [("type", JStr "server_vad")]);
                  ("input_audio_format", JStr "g711_ulaw");
                  ("output_audio_format", JStr "g711_ulaw");
                  ("voice", JStr VOICE);
                  ("instructions", JStr SYSTEM_MESSAGE);
                  ("modalities", JArr [JStr "text"; JStr "audio"]);
                  ("temperature", JFloat 0.8) ]) ].

(** [send_session_update], on the connection [ws_connect] has just
    opened. *)
Definition send_session_update : M unit :=
  print (SendingSessionUpdate session_update) ;;
  openai_send_json true session_update.

(** The message [receive_from_twilio] sends for a [media] event. *)
Definition audio_append (payload : json) : json :=
  JObj [ ("type", JStr "input_audio_buffer.append"); ("audio", payload) ].

(** The body of the loop of [receive_from_twilio], for one [message],
    with the transport under the AI connection up or not. *)
Definition receive_from_twilio_on (link_up : bool) (message : wire)
  : M unit :=
  data <- eval (json_loads message) ;;
  event <- eval (subscript data "event") ;;
  closed <- gets openai_closed ;;
  if py_eq event "media" && Bool.eqb closed false then
    media <- eval (subscript data "media") ;;
    payload <- eval (subscript media "payload") ;;
    openai_send_json link_up (audio_append payload)
  else
    event <- eval (subscript data "event") ;;
    if py_eq event "start" then
      start <- eval (subscript data "start") ;;
      sid <- eval (subscript start "streamSid") ;;
      modify (set_stream_sid sid) ;;
      print (IncomingStreamStarted sid)
    else pass.

(** The same with the transport up, as in a call whose AI connection does
    not break down behind the program's back. *)
Definition receive_from_twilio_body (message : wire) : M unit :=
  receive_from_twilio_on true message.

(** The handler of [WebSocketDisconnect] in [receive_from_twilio];
    closing the AI connection ends the iteration of [send_to_twilio]. *)
Definition receive_from_twilio_disconnect : M unit :=
  print ClientDisconnected ;;
  closed <- gets openai_closed ;;
  if Bool.eqb closed false then
    modify (set_openai_closed true) ;;
    modify (fun st =>
              match outbound st with
              | Running => set_outbound Returned st
              | _ => st
              end)
  else pass.

(** The frame [send_to_twilio] sends for an audio delta. *)
Definition audio_delta (stream_sid : json) (audio_payload : string) : json :=
  JObj [ ("event", JStr "media");
         ("streamSid", stream_sid);
         ("media", JObj [("payload", JStr audio_payload)]) ].

Section Relay.

(** [format(v, "")] of a value that is not a [str], as an f-string
    renders it: the interpreter's, not the program's. *)
Variable py_format : json -> string.

(** [f"{v}"] *)
Definition fstring (v : json) : string :=
  match v with
  | JStr s => s
  | _ => py_format v
  end.

(** The four [if] statements of the loop of [send_to_twilio], in order. *)

Definition log_event (response : json) : M unit :=
  type <- eval (subscript response "type") ;;
  if py_in_list type LOG_EVENT_TYPES then
    type <- eval (subscript response "type") ;;
    print (ReceivedEvent type response)
  else pass.

Definition log_session_updated (response : json) : M unit :=
  type <- eval (subscript response "type") ;;
  if py_eq type "session.updated" then print (SessionUpdated response)
  else pass.

(** [response['type'] == 'response.audio.delta' and response.get('delta')]:
    [get] is called only when the type matches. *)
Definition is_audio_delta (response : json) : M bool :=
  type <- eval (subscript response "type") ;;
  if py_eq type "response.audio.delta" then
    delta <- eval (py_get response "delta" JNull) ;;
    ret (py_truthy delta)
  else ret false.

Definition forward_audio (response : json) : M unit :=
  audio <- is_audio_delta response ;;
  if audio : bool then
    try_except
      (delta <- eval (subscript response "delta") ;;
       decoded <- eval (Base64.b64decode delta) ;;
       let audio_payload := Base64.b64encode decoded in
       sid <- gets stream_sid ;;
       twilio_send_json (audio_delta sid audio_payload))
      (fun e => print (ErrorProcessingAudio e))
  else pass.

Definition record_content (response : json) : M unit :=
  type <- eval (subscript response "type") ;;
  if py_eq type "response.content.done" then
    ai_response <- eval (py_get response "content" (JStr "")) ;;
    print (AiSays ai_response) ;;
    log <- gets conversation_log ;;
    modify (set_conversation_log
              (log ++ "AI: " ++ fstring ai_response ++ Str.newline)) ;;
    lowered <- eval (str_lower ai_response) ;;
    name <- gets client_name ;;
    if Str.contains "name" lowered && String.eqb name Unknown_Client then
      pieces <- eval (str_split ai_response "name") ;;
      piece <- eval (py_last pieces) ;;
      modify (set_client_name (Str.strip piece))
    else pass
  else pass.

(** The body of the loop of [send_to_twilio], for one [openai_message]. *)
Definition send_to_twilio_body (openai_message : wire) : M unit :=
  response <- eval (json_loads openai_message) ;;
  log_event response ;;
  log_session_updated response ;;
  forward_audio response ;;
  record_content response.

(** What a connection delivers to the coroutine that reads it.

    [End_] is how a hang-up arrives: Starlette's [iter_text] ends the
    iteration when the peer disconnects.  [Disconnect] is the case the
    handler of [receive_from_twilio] is written for, a
    [WebSocketDisconnect] raised inside the loop; whether the framework
    ever lets one through is not the program's doing.

    [LinkDown message] is a message that arrives when the transport under
    the AI connection has gone without [send_to_twilio] noticing (its
    loop has ended, nobody receives): a send then raises. *)
Inductive twilio_input :=
| Text (message : wire)    (* iter_text() yields a message *)
| End_                     (* iter_text() is exhausted *)
| Disconnect               (* iter_text() raises WebSocketDisconnect *)
| LinkDown (message : wire).

(** [Closed] is the iteration of [send_to_twilio] finding the connection
    closed or failed. *)
Inductive openai_input :=
| Message (openai_message : wire)  (* the iteration yields a message *)
| Closed.                  (* the AI connection has closed or failed *)

Inductive input :=
| FromTwilio (t : twilio_input)
| FromOpenAI (o : openai_input).

(** One turn of [receive_from_twilio].  An exception of the loop body is
    not a [WebSocketDisconnect]: nothing catches it. *)
Definition receive_from_twilio (t : twilio_input) (st : call_state)
  : call_state :=
  match t with
  | Text message =>
      match receive_from_twilio_body message st with
      | (Ok _, st') => st'
      | (Raise e, st') => set_inbound (Raised e) st'
      end
  | End_ => set_inbound Returned (set_twilio_connected false st)
  | Disconnect =>
      set_inbound Returned
        (snd (receive_from_twilio_disconnect (set_twilio_connected false st)))
  | LinkDown message =>
      match receive_from_twilio_on false message st with
      | (Ok _, st') => st'
      | (Raise e, st') => set_inbound (Raised e) st'
      end
  end.

(** One turn of [send_to_twilio]; [except Exception] is around the loop. *)
Definition send_to_twilio (o : openai_input) (st : call_state) : call_state :=
  match o with
  | Message openai_message =>
      match send_to_twilio_body openai_message st with
      | (Ok _, st') => st'
      | (Raise e, st') =>
          set_outbound Returned (snd (print (ErrorInSendToTwilio e) st'))
      end
  | Closed => set_outbound Returned (set_openai_closed true st)
  end.

(** [asyncio.gather(receive_from_twilio(), send_to_twilio())]: each input
    goes to the coroutine that reads its connection, if it still runs; an
    input for a coroutine that has ended is read by nobody and leaves the
    state as it is (a close of the AI connection that [send_to_twilio]
    does not read leaves [openai_ws.closed] at [False]; what the
    telephony side delivers after it are [LinkDown] messages).
    Once [receive_from_twilio] has raised, [gather] raises in
    [handle_media_stream], which leaves its [async with] blocks: the AI
    connection is closed and nothing more is relayed. *)
Definition step (st : call_state) (i : input) : call_state :=
  match inbound st with
  | Raised _ => st
  | _ =>
      match i with
      | FromTwilio t =>
          match inbound st with
          | Running => receive_from_twilio t st
          | _ => st
          end
      | FromOpenAI o =>
          match outbound st with
          | Running => send_to_twilio o st
          | _ => st
          end
      end
  end.

Definition run (schedule : list input) (st : call_state) : call_state :=
  fold_left step schedule st.

(** Every close of the AI connection in the schedule is read by
    [send_to_twilio], which is still iterating when it comes: these are
    the schedules of the program, where a close that nobody reads shows
    only in the [LinkDown] messages that follow it. *)
Fixpoint closes_noticed (schedule : list input) (st : call_state) : bool :=
  match schedule with
  | [] => true
  | i :: rest =>
      match i, outbound st with
      | FromOpenAI Closed, Returned => false
      | FromOpenAI Closed, Raised _ => false
      | _, _ => closes_noticed rest (step st i)
      end
  end.

(** The variables as [handle_media_stream] sets them. *)
Definition initial : call_state :=
  mkState JNull Unknown_Client "" false true Running Running [] [] [] [].

(** The call up to [asyncio.gather]. *)
Definition connected : call_state :=
  snd ((print ClientConnected ;; send_session_update) initial).

(** [open(filename, "w")] as the file system answers it: the name comes
    from what the AI said and may be one it refuses (a directory that does
    not exist, a NUL, a name too long). *)
Variable fs_open : string -> outcome unit.

(** [store_conversation]: nothing is written or printed when [open]
    raises. *)
Definition store_conversation (client_name conversation : string) : M unit :=
  let filename := filename_of client_name in
  eval (fs_open filename) ;;
  modify (fun st => set_files (files st ++ [(filename, conversation)]) st) ;;
  print (ConversationStored filename).

(** [handle_media_stream] on the inputs of one call: the conversation is
    stored when [gather] has returned, that is when both coroutines have.
    An exception of [store_conversation] leaves the handler with the
    state as it was. *)
Definition handle_media_stream (schedule : list input) : call_state :=
  let st := run schedule connected in
  match inbound st, outbound st with
  | Returned, Returned =>
      snd (store_conversation (client_name st) (conversation_log st) st)
  | _, _ => st
  end.

End Relay.

(** *** Messages of the two protocols, for examples *)

Definition start_event (sid : string) : wire :=
  Json (JObj [("event", JStr "start");
              ("start", JObj [("streamSid", JStr sid)])]).

Definition media_event (payload : string) : wire :=
  Json (JObj [("event", JStr "media");
              ("media", JObj [("payload", JStr payload)])]).

Definition audio_delta_event (delta : string) : wire :=
  Json (JObj [("type", JStr "response.audio.delta"); ("delta", JStr delta)]).

Definition content_done_event (content : string) : wire :=
  Json (JObj [("type", JStr "response.content.done");
              ("content", JStr content)]).

(** [open(filename, "w")] for the closed examples: the working directory
    has no subdirectory and the names are relative.  A name with a NUL is
    refused by [open] itself, one with a slash names a directory that is
    not there ([FileNotFoundError], an [OSError]), and one of more than
    255 characters is too long for the file system. *)
Definition fs_flat (filename : string) : outcome unit :=
  if Str.contains (String (ascii_of_N 0) "") filename then Raise ValueError
  else if Str.contains "/" filename then Raise OSError
  else if (255 <? String.length filename)%nat then Raise OSError
  else Ok tt.

(** A rendering of [None], [True] and [False]; the closed examples below
    contain no other value that is not a [str]. *)
Definition py_format_atoms (v : json) : string :=
  match v with
  | JNull => "None"
  | JBool true => "True"
  | JBool false => "False"
  | _ => ""
  end.

(** * Properties *)

(** ** The library functions on examples *)

Example lower_ex : Str.lower "My NAME is Asha." = "my name is asha.".
Proof. reflexivity. Qed.

Example strip_ex : Str.strip "  is Asha. " = "is Asha.".
Proof. reflexivity. Qed.

Example split_ex :
  Str.split "name" "my name is, surname too" = ["my "; " is, sur"; " too"].
Proof. reflexivity. Qed.

Example split_end_ex : Str.split "name" "your name" = ["your "; ""].
Proof. reflexivity. Qed.

Example replace_ex : Str.replace " " "_" "Asha K Rao" = "Asha_K_Rao".
Proof. reflexivity. Qed.

Example b64decode_ex :
  Base64.b64decode (JStr "SGVsbG8=") = Ok [72; 101; 108; 108; 111]%N.
Proof. reflexivity. Qed.

Example b64encode_ex :
  Base64.b64encode [72; 101; 108; 108; 111]%N = "SGVsbG8=".
Proof. reflexivity. Qed.

Example b64decode_padding_ex :
  Base64.b64decode (JStr "SGVsbG8") = Raise Base64Error.
Proof. reflexivity. Qed.

Example b64decode_type_ex : Base64.b64decode (JInt 7) = Raise TypeError.
Proof. reflexivity. Qed.

(** ** Reasoning about statements *)

Lemma bind_Ok {A B} (m : M A) (k : A -> M B) st b st' :
  bind m k st = (Ok b, st') ->
  exists a st1, m st = (Ok a, st1) /\ k a st1 = (Ok b, st').
Proof.
  unfold bind. destruct (m st) as [[a | e] st1]; intros H.
  - exists a, st1. split; [reflexivity | exact H].
  - discriminate H.
Qed.

Lemma bind_Raise {A B} (m : M A) (k : A -> M B) st e st' :
  bind m k st = (Raise e, st') ->
  m st = (Raise e, st') \/
  exists a st1, m st = (Ok a, st1) /\ k a st1 = (Raise e, st').
Proof.
  unfold bind. destruct (m st) as [[a | e0] st1]; intros H.
  - right. exists a, st1. split; [reflexivity | exact H].
  - left. inversion H. reflexivity.
Qed.

Lemma bind_eq_Ok {A B} (m : M A) (k : A -> M B) st a st1 :
  m st = (Ok a, st1) -> bind m k st = k a st1.
Proof. unfold bind. intros ->. reflexivity. Qed.

(** A statement [m] keeps the relation [R] between the state it starts in
    and the state it leaves, whether it returns or raises. *)
Definition keeps {A} (R : call_state -> call_state -> Prop) (m : M A) : Prop :=
  forall st, R st (snd (m st)).

Section Keeps.

Variable R : call_state -> call_state -> Prop.
Hypothesis R_refl : forall st, R st st.
Hypothesis R_trans : forall a b c, R a b -> R b c -> R a c.

Lemma keeps_ret {A} (a : A) : keeps R (ret a).
Proof. intros st. apply R_refl. Qed.

Lemma keeps_eval {A} (o : outcome A) : keeps R (eval o).
Proof. intros st. apply R_refl. Qed.

Lemma keeps_gets {A} (f : call_state -> A) : keeps R (gets f).
Proof. intros st. apply R_refl. Qed.

Lemma keeps_modify f : (forall st, R st (f st)) -> keeps R (modify f).
Proof. intros H st. apply H. Qed.

Lemma keeps_bind {A B} (m : M A) (k : A -> M B) :
  keeps R m -> (forall a, keeps R (k a)) -> keeps R (bind m k).
Proof.
  intros Hm Hk st. unfold bind. specialize (Hm st).
  destruct (m st) as [[a | e] st1]; simpl in Hm.
  - eapply R_trans; [exact Hm | apply Hk].
  - exact Hm.
Qed.

Lemma keeps_try_except body handler :
  keeps R body -> (forall e, keeps R (handler e)) ->
  keeps R (try_except body handler).
Proof.
  intros Hb Hh st. unfold try_except. specialize (Hb st).
  destruct (body st) as [[[] | e] st1]; simpl in Hb.
  - exact Hb.
  - eapply R_trans; [exact Hb | apply Hh].
Qed.

Lemma keeps_if {A} (b : bool) (m1 m2 : M A) :
  keeps R m1 -> keeps R m2 -> keeps R (if b then m1 else m2).
Proof. destruct b; auto. Qed.

End Keeps.

(** Goals [keeps R m] follow the shape of [m]. *)
Ltac keeps_tac Hrefl Htrans :=
  repeat first
    [ apply (keeps_bind _ Htrans); [ | intros ? ]
    | apply (keeps_try_except _ Htrans); [ | intros ? ]
    | apply keeps_if
    | apply (keeps_ret _ Hrefl)
    | apply (keeps_eval _ Hrefl)
    | apply (keeps_gets _ Hrefl)
    | apply keeps_modify; intros ? ].

(** ** What each coroutine can change *)

(** [send_to_twilio] writes [client_name] and [conversation_log], sends to
    the telephony connection and prints; nothing else. *)
Definition outbound_frame (st st' : call_state) : Prop :=
  stream_sid st' = stream_sid st /\
  openai_closed st' = openai_closed st /\
  twilio_connected st' = twilio_connected st /\
  inbound st' = inbound st /\
  outbound st' = outbound st /\
  openai_sent st' = openai_sent st /\
  files st' = files st.

(** The statements of [send_to_twilio] before the last one leave the
    transcript and the name alone as well. *)
Definition relay_frame (st st' : call_state) : Prop :=
  outbound_frame st st' /\
  client_name st' = client_name st /\
  conversation_log st' = conversation_log st.

(** [receive_from_twilio] does not touch what [send_to_twilio] writes. *)
Definition inbound_frame (st st' : call_state) : Prop :=
  client_name st' = client_name st /\
  conversation_log st' = conversation_log st /\
  twilio_sent st' = twilio_sent st /\
  files st' = files st.

Lemma outbound_frame_refl st : outbound_frame st st.
Proof. repeat split. Qed.

Lemma outbound_frame_trans a b c :
  outbound_frame a b -> outbound_frame b c -> outbound_frame a c.
Proof. unfold outbound_frame. intuition congruence. Qed.

Lemma relay_frame_refl st : relay_frame st st.
Proof. repeat split. Qed.

Lemma relay_frame_trans a b c :
  relay_frame a b -> relay_frame b c -> relay_frame a c.
Proof. unfold relay_frame, outbound_frame. intuition congruence. Qed.

Lemma inbound_frame_refl st : inbound_frame st st.
Proof. repeat split. Qed.

Lemma inbound_frame_trans a b c :
  inbound_frame a b -> inbound_frame b c -> inbound_frame a c.
Proof. unfold inbound_frame. intuition congruence. Qed.

Lemma keeps_print_relay l : keeps relay_frame (print l).
Proof. intros st. repeat split. Qed.

Lemma keeps_twilio_send_relay msg : keeps relay_frame (twilio_send_json msg).
Proof.
  intros st. unfold twilio_send_json.
  destruct (twilio_connected st); repeat split.
Qed.

Ltac relay_frame_tac :=
  repeat first
    [ apply keeps_print_relay
    | apply keeps_twilio_send_relay
    | progress keeps_tac relay_frame_refl relay_frame_trans ].

Lemma log_event_frame response : keeps relay_frame (log_event response).
Proof. unfold log_event, pass. relay_frame_tac. Qed.

Lemma log_session_updated_frame response :
  keeps relay_frame (log_session_updated response).
Proof. unfold log_session_updated, pass. relay_frame_tac. Qed.

Lemma forward_audio_frame response :
  keeps relay_frame (forward_audio response).
Proof. unfold forward_audio, is_audio_delta, pass. relay_frame_tac. Qed.

Lemma relay_frame_outbound st st' : relay_frame st st' -> outbound_frame st st'.
Proof. intros [H _]. exact H. Qed.

Lemma record_content_frame fmt response :
  keeps outbound_frame (record_content fmt response).
Proof.
  unfold record_content, pass.
  keeps_tac outbound_frame_refl outbound_frame_trans; repeat split.
Qed.

Lemma send_to_twilio_body_frame fmt m :
  keeps outbound_frame (send_to_twilio_body fmt m).
Proof.
  unfold send_to_twilio_body.
  apply (keeps_bind _ outbound_frame_trans);
    [ apply (keeps_eval _ outbound_frame_refl) | intros response ].
  repeat (apply (keeps_bind _ outbound_frame_trans); [ | intros _ ]).
  - intros st. apply relay_frame_outbound, log_event_frame.
  - intros st. apply relay_frame_outbound, log_session_updated_frame.
  - intros st. apply relay_frame_outbound, forward_audio_frame.
  - apply record_content_frame.
Qed.

(** The four outcomes of the loop body of [receive_from_twilio]: it raises
    before any effect, it passes, it forwards a payload to an open AI
    connection, or it records the stream identifier. *)
Inductive inbound_effect (st : call_state)
  : outcome unit * call_state -> Prop :=
| inbound_raises e : inbound_effect st (Raise e, st)
| inbound_passes : inbound_effect st (Ok tt, st)
| inbound_forwards payload :
    openai_closed st = false ->
    inbound_effect st
      (Ok tt, set_openai_sent (openai_sent st ++ [audio_append payload]) st)
| inbound_starts sid :
    inbound_effect st
      (Ok tt,
       set_stdout (stdout st ++ [IncomingStreamStarted sid])
         (set_stream_sid sid st)).

Lemma receive_from_twilio_on_effect link_up message st :
  inbound_effect st (receive_from_twilio_on link_up message st).
Proof.
  unfold receive_from_twilio_on, openai_send_json, print, modify, bind,
    eval, gets, pass, ret.
  destruct message as [ | data]; simpl; [ constructor | ].
  destruct (subscript data "event") as [event | e]; [ | constructor ].
  destruct (py_eq event "media"); simpl.
  - destruct (openai_closed st) eqn:Hclosed; simpl.
    + destruct (py_eq event "start"); [ | constructor ].
      destruct (subscript data "start") as [start | e]; [ | constructor ].
      destruct (subscript start "streamSid"); [ apply inbound_starts | constructor ].
    + destruct (subscript data "media") as [media | e]; [ | constructor ].
      destruct (subscript media "payload"); [ | constructor ].
      destruct link_up; [ | constructor ].
      apply inbound_forwards. exact Hclosed.
  - destruct (py_eq event "start"); [ | constructor ].
    destruct (subscript data "start") as [start | e]; [ | constructor ].
    destruct (subscript start "streamSid"); [ apply inbound_starts | constructor ].
Qed.

Lemma receive_from_twilio_body_effect message st :
  inbound_effect st (receive_from_twilio_body message st).
Proof. apply receive_from_twilio_on_effect. Qed.

(** ** One turn of a coroutine *)

Lemma receive_from_twilio_frame t st :
  inbound_frame st (receive_from_twilio t st).
Proof.
  destruct t as [message | | | message]; simpl.
  - destruct (receive_from_twilio_body_effect message st); repeat split.
  - repeat split.
  - unfold receive_from_twilio_disconnect, print, modify, bind, gets, pass, ret.
    simpl. destruct (openai_closed st); simpl; [ repeat split | ].
    destruct (outbound st); repeat split.
  - destruct (receive_from_twilio_on_effect false message st); repeat split.
Qed.

(** A turn of [send_to_twilio] leaves alone what [receive_from_twilio]
    writes and sends. *)
Lemma send_to_twilio_frame fmt o st :
  let st' := send_to_twilio fmt o st in
  stream_sid st' = stream_sid st /\
  twilio_connected st' = twilio_connected st /\
  inbound st' = inbound st /\
  openai_sent st' = openai_sent st /\
  files st' = files st.
Proof.
  destruct o as [m | ]; simpl; [ | repeat split ].
  pose proof (send_to_twilio_body_frame fmt m st) as H.
  destruct (send_to_twilio_body fmt m st) as [[[] | e] st1];
    simpl in *; unfold outbound_frame in H; intuition.
Qed.

(** What a turn of [receive_from_twilio] does to the messages sent to the
    AI connection: nothing, or one more audio message. *)
Lemma receive_from_twilio_sent t st :
  openai_sent (receive_from_twilio t st) = openai_sent st \/
  exists payload,
    openai_sent (receive_from_twilio t st)
    = (openai_sent st ++ [audio_append payload])%list.
Proof.
  destruct t as [message | | | message]; simpl.
  - destruct (receive_from_twilio_body_effect message st);
      simpl; eauto.
  - left. reflexivity.
  - unfold receive_from_twilio_disconnect, print, modify, bind, gets, pass, ret.
    simpl. destruct (openai_closed st); simpl; [ left; reflexivity | ].
    destruct (outbound st); left; reflexivity.
  - destruct (receive_from_twilio_on_effect false message st);
      simpl; eauto.
Qed.

Lemma step_openai_sent fmt st i :
  openai_sent (step fmt st i) = openai_sent st \/
  exists payload,
    openai_sent (step fmt st i)
    = (openai_sent st ++ [audio_append payload])%list.
Proof.
  unfold step.
  destruct (inbound st); destruct i as [t | o]; try destruct (outbound st);
    try (left; reflexivity);
    first [ apply receive_from_twilio_sent
          | left; apply send_to_twilio_frame ].
Qed.

Lemma step_files fmt st i : files (step fmt st i) = files st.
Proof.
  unfold step.
  destruct (inbound st); destruct i as [t | o]; try destruct (outbound st);
    try reflexivity;
    first [ apply receive_from_twilio_frame | apply send_to_twilio_frame ].
Qed.

Lemma run_app fmt s1 s2 st :
  run fmt (s1 ++ s2) st = run fmt s2 (run fmt s1 st).
Proof. unfold run. apply fold_left_app. Qed.

Lemma run_cons fmt i s st : run fmt (i :: s) st = run fmt s (step fmt st i).
Proof. reflexivity. Qed.

Lemma run_files fmt schedule st : files (run fmt schedule st) = files st.
Proof.
  revert st. induction schedule as [ | i s IH]; intros st; [ reflexivity | ].
  rewrite run_cons, IH. apply step_files.
Qed.


(** ** The session initialization (C5) *)

Definition is_audio_append (msg : json) : Prop :=
  exists payload, msg = audio_append payload.

(** The value found in [v] under a path of keys. *)
Fixpoint at_path (path : list string) (v : json) : outcome json :=
  match path with
  | [] => Ok v
  | key :: rest =>
      match subscript v key with
      | Ok x => at_path rest x
      | Raise e => Raise e
      end
  end.

(** How many of [msgs] declare the type [type]. *)
Definition count_type (type : string) (msgs : list json) : nat :=
  List.length
    (filter (fun msg => match subscript msg "type" with
                        | Ok t => py_eq t type
                        | Raise _ => false
                        end) msgs).

Lemma count_type_audio type audio :
  Forall is_audio_append audio ->
  String.eqb "input_audio_buffer.append" type = false ->
  count_type type audio = 0%nat.
Proof.
  intros H Hty. unfold count_type.
  induction H as [ | msg l [payload ->] _ IH]; [ reflexivity | ].
  cbn [filter].
  change (subscript (audio_append payload) "type")
    with (@Ok json (JStr "input_audio_buffer.append")).
  cbn [py_eq]. rewrite Hty. exact IH.
Qed.

Lemma run_openai_sent fmt schedule st :
  exists audio,
    openai_sent (run fmt schedule st) = (openai_sent st ++ audio)%list /\
    Forall is_audio_append audio.
Proof.
  revert st. induction schedule as [ | i s IH]; intros st.
  - exists []. split; [ symmetry; apply app_nil_r | constructor ].
  - rewrite run_cons. destruct (IH (step fmt st i)) as (audio & Heq & Hall).
    destruct (step_openai_sent fmt st i) as [Hs | [payload Hs]];
      rewrite Hs in Heq.
    + exists audio. split; assumption.
    + exists (audio_append payload :: audio). split.
      * rewrite Heq, <- app_assoc. reflexivity.
      * constructor; [ exists payload; reflexivity | exact Hall ].
Qed.

(** [store_conversation] either writes one file and prints one line, or
    raises what [open] raised and changes nothing. *)
Lemma store_conversation_ok fs name log st :
  fs (filename_of name) = Ok tt ->
  store_conversation fs name log st
  = (Ok tt,
     set_stdout (stdout st ++ [ConversationStored (filename_of name)])
       (set_files (files st ++ [(filename_of name, log)]) st)).
Proof.
  intros H. unfold store_conversation, eval, print, modify, bind.
  rewrite H. reflexivity.
Qed.

Lemma store_conversation_raise fs name log st e :
  fs (filename_of name) = Raise e ->
  store_conversation fs name log st = (Raise e, st).
Proof.
  intros H. unfold store_conversation, eval, print, modify, bind.
  rewrite H. reflexivity.
Qed.

Lemma store_conversation_cases fs name log st :
  store_conversation fs name log st
  = (Ok tt,
     set_stdout (stdout st ++ [ConversationStored (filename_of name)])
       (set_files (files st ++ [(filename_of name, log)]) st)) \/
  exists e, store_conversation fs name log st = (Raise e, st).
Proof.
  destruct (fs (filename_of name)) as [[] | e] eqn:H.
  - left. apply store_conversation_ok. exact H.
  - right. exists e. apply store_conversation_raise. exact H.
Qed.

(** [handle_media_stream] after [gather] touches only the files and the
    printed lines. *)
Lemma handle_media_stream_frame fmt fs schedule :
  let st := run fmt schedule connected in
  let final := handle_media_stream fmt fs schedule in
  stream_sid final = stream_sid st /\
  client_name final = client_name st /\
  conversation_log final = conversation_log st /\
  openai_closed final = openai_closed st /\
  twilio_connected final = twilio_connected st /\
  inbound final = inbound st /\
  outbound final = outbound st /\
  openai_sent final = openai_sent st /\
  twilio_sent final = twilio_sent st.
Proof.
  intros st final. unfold final, handle_media_stream. fold st.
  destruct (inbound st) eqn:Hin; [ repeat split; auto | | repeat split; auto ].
  destruct (outbound st) eqn:Hout;
    [ repeat split; auto | | repeat split; auto ].
  destruct (store_conversation_cases fs (client_name st)
              (conversation_log st) st) as [-> | [e ->]];
    simpl; repeat split; auto.
Qed.

Lemma handle_media_stream_openai_sent fmt fs schedule :
  openai_sent (handle_media_stream fmt fs schedule)
  = openai_sent (run fmt schedule connected).
Proof.
  unfold handle_media_stream.
  destruct (inbound (run fmt schedule connected)); try reflexivity.
  destruct (outbound (run fmt schedule connected)); try reflexivity.
  destruct (store_conversation_cases fs
              (client_name (run fmt schedule connected))
              (conversation_log (run fmt schedule connected))
              (run fmt schedule connected)) as [-> | [e ->]]; reflexivity.
Qed.

(** C5: in every call whose AI connection was opened, the messages sent to
    the AI connection are the session initialization followed by audio
    messages only: exactly one message of type [session.update] is sent,
    it is sent first, and it declares server-side voice-activity
    detection, the g711_ulaw formats, the voice, the instructions, the
    text and audio modalities and a temperature. *)
Theorem session_update_once_and_first fmt fs schedule :
  let sent := openai_sent (handle_media_stream fmt fs schedule) in
  (exists audio, sent = session_update :: audio /\
                 Forall is_audio_append audio) /\
  count_type "session.update" sent = 1%nat /\
  at_path ["type"] session_update = Ok (JStr "session.update") /\
  at_path ["session"; "turn_detection"; "type"] session_update
  = Ok (JStr "server_vad") /\
  at_path ["session"; "input_audio_format"] session_update
  = Ok (JStr "g711_ulaw") /\
  at_path ["session"; "output_audio_format"] session_update
  = Ok (JStr "g711_ulaw") /\
  at_path ["session"; "voice"] session_update = Ok (JStr VOICE) /\
  at_path ["session"; "instructions"] session_update
  = Ok (JStr SYSTEM_MESSAGE) /\
  at_path ["session"; "modalities"] session_update
  = Ok (JArr [JStr "text"; JStr "audio"]) /\
  at_path ["session"; "temperature"] session_update = Ok (JFloat 0.8).
Proof.
  intros sent. subst sent. rewrite handle_media_stream_openai_sent.
  destruct (run_openai_sent fmt schedule connected) as (audio & Heq & Hall).
  change (openai_sent connected) with [session_update] in Heq.
  rewrite Heq. split; [ | split ].
  - exists audio. split; [ reflexivity | exact Hall ].
  - change ([session_update] ++ audio)%list with (session_update :: audio).
    unfold count_type in *. simpl.
    f_equal. apply (count_type_audio "session.update" audio Hall).
    reflexivity.
  - repeat split.
Qed.

(** ** Persistence (C9) *)

Lemma filename_of_replace name :
  filename_of name = Str.replace " " "_" name ++ "_loan_conversation.txt".
Proof.
  unfold filename_of. destruct (String.eqb_spec name Unknown_Client) as [-> | _];
    reflexivity.
Qed.

(** While a coroutine has not returned, nothing is stored. *)
Lemma not_stored_while_running fmt fs schedule :
  let st := run fmt schedule connected in
  inbound st <> Returned \/ outbound st <> Returned ->
  handle_media_stream fmt fs schedule = st.
Proof.
  intros st H. unfold handle_media_stream. fold st.
  destruct (inbound st); try reflexivity.
  destruct (outbound st); try reflexivity.
  destruct H as [H | H]; contradiction H; reflexivity.
Qed.

(** C9 as stated fails in two ways.  Both loops have terminated
    when [receive_from_twilio] has ended with an exception (here a frame
    that is not JSON, after the AI connection has closed), and nothing is
    handed over then; and the hand-over itself fails, leaving no file,
    when the name taken from the AI's words is one [open] refuses. *)
Lemma conversation_not_always_stored :
  (let final :=
     handle_media_stream py_format_atoms fs_flat
       [ FromOpenAI Closed; FromTwilio (Text NotJson) ] in
   inbound final = Raised JSONDecodeError /\
   outbound final = Returned /\
   files final = [] /\
   stdout final = [ ClientConnected; SendingSessionUpdate session_update ]) /\
  (let final :=
     handle_media_stream py_format_atoms fs_flat
       [ FromOpenAI (Message (content_done_event "My name is A/B"));
         FromOpenAI Closed; FromTwilio End_ ] in
   inbound final = Returned /\
   outbound final = Returned /\
   client_name final = "is A/B" /\
   files final = []).
Proof. vm_compute. repeat split. Qed.

(** C9, amended: in a call where every close of the AI connection is
    read by [send_to_twilio], the conversation is handed to
    [store_conversation] when both coroutines have returned, and only
    then; that call writes one file, holding the transcript and named
    after the client name (spaces replaced by underscores,
    [Unknown_Client_loan_conversation.txt] when no name was captured),
    unless [open] refuses the name.  When a coroutine has not returned,
    or has ended with an exception, or [open] raises, the call ends
    without a file and without the line that tells of one. *)
Theorem stored_exactly_once fmt fs schedule :
  let st := run fmt schedule connected in
  let final := handle_media_stream fmt fs schedule in
  let filename := filename_of (client_name st) in
  closes_noticed fmt schedule connected = true ->
  (inbound st = Returned -> outbound st = Returned ->
   fs filename = Ok tt ->
   files final = [(filename, conversation_log st)] /\
   stdout final = (stdout st ++ [ConversationStored filename])%list) /\
  (inbound st = Returned -> outbound st = Returned ->
   forall e, fs filename = Raise e ->
   final = st /\ files final = []) /\
  (inbound st <> Returned \/ outbound st <> Returned ->
   final = st /\ files final = []) /\
  filename
  = Str.replace " " "_" (client_name st) ++ "_loan_conversation.txt" /\
  (client_name st = Unknown_Client ->
   filename = "Unknown_Client_loan_conversation.txt").
Proof.
  intros st final filename _.
  assert (Hf : files st = []) by (unfold st; rewrite run_files; reflexivity).
  split; [ | split; [ | split; [ | split ] ] ].
  - intros Hin Hout Hfs. unfold final, handle_media_stream. fold st.
    rewrite Hin, Hout.
    rewrite (store_conversation_ok fs (client_name st) (conversation_log st)
               st Hfs).
    simpl. rewrite Hf. split; reflexivity.
  - intros Hin Hout e Hfs. unfold final, handle_media_stream. fold st.
    rewrite Hin, Hout.
    rewrite (store_conversation_raise fs (client_name st)
               (conversation_log st) st e Hfs).
    simpl. split; [ reflexivity | exact Hf ].
  - intros H. unfold final.
    rewrite (not_stored_while_running fmt fs schedule H). fold st.
    split; [ reflexivity | exact Hf ].
  - apply filename_of_replace.
  - unfold filename. intros ->. reflexivity.
Qed.

Lemma stored_exactly_once_witness :
  files (handle_media_stream py_format_atoms fs_flat
           [ FromOpenAI (Message (content_done_event "Hello, my name is Asha."));
             FromOpenAI Closed; FromTwilio End_ ])
  = [("is_Asha._loan_conversation.txt",
      "AI: Hello, my name is Asha." ++ Str.newline)].
Proof.
  exact (proj1 (proj1 (stored_exactly_once py_format_atoms fs_flat
           [ FromOpenAI (Message (content_done_event "Hello, my name is Asha."));
             FromOpenAI Closed; FromTwilio End_ ] eq_refl)
          eq_refl eq_refl eq_refl)).
Defined.

(** ** Telephony audio to the AI connection (C1, C4) *)

(** The payload of a well-formed [media] event. *)
Definition media_payload (data : json) : option json :=
  match subscript data "event" with
  | Ok event =>
      if py_eq event "media" then
        match at_path ["media"; "payload"] data with
        | Ok payload => Some payload
        | Raise _ => None
        end
      else None
  | Raise _ => None
  end.

(** The stream identifier of a well-formed [start] event. *)
Definition start_sid (data : json) : option json :=
  match subscript data "event" with
  | Ok event =>
      if py_eq event "start" then
        match at_path ["start"; "streamSid"] data with
        | Ok sid => Some sid
        | Raise _ => None
        end
      else None
  | Raise _ => None
  end.

(** What the telephony connection delivers in a schedule, in order. *)
Fixpoint telephony (schedule : list input) : list twilio_input :=
  match schedule with
  | [] => []
  | FromTwilio t :: rest => t :: telephony rest
  | FromOpenAI _ :: rest => telephony rest
  end.

(** The AI connection does not close during the schedule. *)
Definition ai_stays_open (schedule : list input) : Prop :=
  ~ In (FromOpenAI Closed) schedule.

Definition text_of (data : json) : twilio_input := Text (Json data).

Lemma receive_media data payload st :
  media_payload data = Some payload ->
  openai_closed st = false ->
  receive_from_twilio_body (Json data) st
  = (Ok tt, set_openai_sent (openai_sent st ++ [audio_append payload]) st).
Proof.
  unfold media_payload, at_path, receive_from_twilio_body,
    receive_from_twilio_on, openai_send_json,
    modify, bind, eval, gets. simpl.
  intros H Hclosed. rewrite Hclosed.
  destruct (subscript data "event") as [event | e]; [ | discriminate H ].
  destruct (py_eq event "media"); [ | discriminate H ]. simpl.
  destruct (subscript data "media") as [media | e]; [ | discriminate H ].
  destruct (subscript media "payload") as [p | e]; [ | discriminate H ].
  inversion H. reflexivity.
Qed.

Lemma receive_start data sid st :
  start_sid data = Some sid ->
  receive_from_twilio_body (Json data) st
  = (Ok tt,
     set_stdout (stdout st ++ [IncomingStreamStarted sid])
       (set_stream_sid sid st)).
Proof.
  unfold start_sid, at_path, receive_from_twilio_body,
    receive_from_twilio_on, print, modify, bind,
    eval, gets. simpl.
  destruct (subscript data "event") as [event | e]; [ | discriminate ].
  destruct event as [ | | | | s | | ]; try discriminate. simpl.
  destruct (String.eqb_spec s "start") as [-> | _]; [ | discriminate ].
  simpl.
  destruct (subscript data "start") as [start | ]; [ | discriminate ].
  destruct (subscript start "streamSid"); [ | discriminate ].
  intros H. inversion H. reflexivity.
Qed.

(** A message from the AI connection changes nothing that
    [receive_from_twilio] reads or writes. *)
Lemma step_message fmt st m :
  let st' := step fmt st (FromOpenAI (Message m)) in
  stream_sid st' = stream_sid st /\
  openai_closed st' = openai_closed st /\
  inbound st' = inbound st /\
  openai_sent st' = openai_sent st.
Proof.
  unfold step.
  destruct (inbound st) eqn:Hin; try (simpl; rewrite Hin; tauto);
    (destruct (outbound st); try (simpl; rewrite Hin; tauto));
    simpl;
    pose proof (send_to_twilio_body_frame fmt m st) as H;
    (destruct (send_to_twilio_body fmt m st) as [[[] | e] st1]);
    simpl in *; unfold outbound_frame in H; rewrite <- Hin; intuition.
Qed.

(** While the AI connection is open and [receive_from_twilio] runs, a
    schedule whose telephony events are all well-formed [media] events gets
    every payload forwarded, in order, and nothing else. *)
Lemma run_media fmt schedule :
  forall st datas payloads,
    inbound st = Running ->
    openai_closed st = false ->
    map media_payload datas = map Some payloads ->
    telephony schedule = map text_of datas ->
    ai_stays_open schedule ->
    let st' := run fmt schedule st in
    stream_sid st' = stream_sid st /\
    inbound st' = Running /\
    openai_closed st' = false /\
    openai_sent st' = (openai_sent st ++ map audio_append payloads)%list.
Proof.
  induction schedule as [ | i s IH];
    intros st datas payloads Hin Hclosed Hpay Htel Hopen.
  - destruct datas; [ | discriminate Htel ].
    destruct payloads; [ | discriminate Hpay ].
    simpl. rewrite app_nil_r. auto.
  - assert (Hopen' : ai_stays_open s)
      by (intros F; apply Hopen; right; exact F).
    rewrite run_cons. destruct i as [t | o].
    + destruct datas as [ | data datas]; [ discriminate Htel | ].
      destruct payloads as [ | payload payloads]; [ discriminate Hpay | ].
      simpl in Htel, Hpay.
      injection Htel as Ht Hts. subst t. injection Hpay as Hp Hps.
      unfold step. rewrite Hin. unfold text_of. simpl.
      rewrite (receive_media data payload st) by assumption.
      edestruct (IH (set_openai_sent (openai_sent st ++ [audio_append payload]) st)
                   datas payloads) as (H1 & H2 & H3 & H4); eauto.
      simpl in *. rewrite H4, <- app_assoc. auto.
    + destruct o as [m | ];
        [ | exfalso; apply Hopen; left; reflexivity ].
      destruct (step_message fmt st m) as (H1 & H2 & H3 & H4).
      edestruct (IH (step fmt st (FromOpenAI (Message m))) datas payloads)
        as (G1 & G2 & G3 & G4); eauto; try congruence.
      cbv zeta. rewrite G1, G4, H1, H4. auto.
Qed.

Lemma telephony_split schedule t ts :
  telephony schedule = t :: ts ->
  exists s1 s2,
    schedule = (s1 ++ FromTwilio t :: s2)%list /\
    telephony s1 = [] /\ telephony s2 = ts.
Proof.
  induction schedule as [ | i s IH]; intros H; [ discriminate H | ].
  destruct i as [t' | o]; simpl in H.
  - inversion H; subst. exists [], s. auto.
  - destruct (IH H) as (s1 & s2 & -> & H1 & H2).
    exists (FromOpenAI o :: s1), s2. auto.
Qed.

Lemma ai_stays_open_app s1 s2 :
  ai_stays_open (s1 ++ s2) -> ai_stays_open s1 /\ ai_stays_open s2.
Proof.
  unfold ai_stays_open. intros H.
  split; intros F; apply H; apply in_or_app; auto.
Qed.

(** C1 (as amended): [media] events that arrive before any [start] event
    are forwarded like any other.  In a call whose telephony events so far
    are well-formed [media] events only, and whose AI connection is open,
    every payload has been sent to the AI connection in an
    [input_audio_buffer.append] message, in order; no error is raised
    ([receive_from_twilio] still runs) and the stream identifier is still
    unset. *)
Theorem media_before_start_forwarded fmt schedule datas payloads :
  map media_payload datas = map Some payloads ->
  telephony schedule = map text_of datas ->
  ai_stays_open schedule ->
  let st := run fmt schedule connected in
  stream_sid st = JNull /\
  inbound st = Running /\
  openai_sent st = session_update :: map audio_append payloads.
Proof.
  intros Hpay Htel Hopen.
  destruct (run_media fmt schedule connected datas payloads)
    as (H1 & H2 & _ & H4); auto.
Qed.

Lemma media_before_start_forwarded_witness :
  let st := run py_format_atoms
              [ FromTwilio (Text (media_event "AAA="));
                FromTwilio (Text (media_event "BBB=")) ] connected in
  stream_sid st = JNull /\
  inbound st = Running /\
  openai_sent st
  = [ session_update; audio_append (JStr "AAA="); audio_append (JStr "BBB=") ].
Proof.
  apply (media_before_start_forwarded py_format_atoms
           [ FromTwilio (Text (media_event "AAA="));
             FromTwilio (Text (media_event "BBB=")) ]
           [ JObj [("event", JStr "media");
                   ("media", JObj [("payload", JStr "AAA=")])];
             JObj [("event", JStr "media");
                   ("media", JObj [("payload", JStr "BBB=")])] ]
           [ JStr "AAA="; JStr "BBB=" ]).
  - reflexivity.
  - reflexivity.
  - unfold ai_stays_open. simpl. intuition discriminate.
Defined.

(** C1 as stated fails: with no [start] event received (the stream
    identifier is unset), a [media] event is forwarded. *)
Lemma media_before_start_not_dropped :
  stream_sid connected = JNull /\
  openai_sent (handle_media_stream py_format_atoms fs_flat
                 [ FromTwilio (Text (media_event "AAA=")) ])
  = [ session_update; audio_append (JStr "AAA=") ].
Proof. split; reflexivity. Qed.

(** C4: in a call whose telephony events are a well-formed [start] event
    followed by well-formed [media] events, and whose AI connection stays
    open, what is sent to the AI connection after the session
    initialization is one [input_audio_buffer.append] message for each
    [media] event, in arrival order, whose [audio] field is the received
    payload unchanged. *)
Theorem media_forwarded_in_order fmt schedule start sid datas payloads :
  start_sid start = Some sid ->
  map media_payload datas = map Some payloads ->
  telephony schedule = text_of start :: map text_of datas ->
  ai_stays_open schedule ->
  let sent := openai_sent (run fmt schedule connected) in
  sent = session_update :: map audio_append payloads /\
  map (at_path ["type"]) (tl sent)
  = map (fun _ => Ok (JStr "input_audio_buffer.append")) payloads /\
  map (at_path ["audio"]) (tl sent) = map Ok payloads.
Proof.
  intros Hstart Hpay Htel Hopen.
  destruct (telephony_split _ _ _ Htel) as (s1 & s2 & -> & Ht1 & Ht2).
  destruct (ai_stays_open_app _ _ Hopen) as [Hopen1 Hopen2].
  assert (Hopen3 : ai_stays_open s2)
    by (intros F; apply Hopen2; right; exact F).
  destruct (run_media fmt s1 connected [] []) as (A1 & A2 & A3 & A4); auto.
  set (st1 := run fmt s1 connected) in *.
  assert (Hstep : step fmt st1 (FromTwilio (text_of start))
                  = set_stdout (stdout st1 ++ [IncomingStreamStarted sid])
                      (set_stream_sid sid st1)).
  { unfold step. rewrite A2. unfold text_of. simpl.
    rewrite (receive_start start sid st1 Hstart). reflexivity. }
  destruct (run_media fmt s2 (step fmt st1 (FromTwilio (text_of start)))
              datas payloads) as (B1 & B2 & B3 & B4); auto;
    try (rewrite Hstep; simpl; assumption).
  assert (Hsent : openai_sent
                    (run fmt (s1 ++ FromTwilio (text_of start) :: s2) connected)
                  = session_update :: map audio_append payloads).
  { rewrite run_app, run_cons. fold st1. rewrite B4, Hstep. simpl.
    rewrite A4. simpl. reflexivity. }
  cbv zeta. rewrite Hsent. simpl. rewrite !map_map. simpl. auto.
Qed.

Lemma media_forwarded_in_order_witness :
  openai_sent
    (run py_format_atoms
       [ FromTwilio (Text (start_event "CA1"));
         FromTwilio (Text (media_event "AAA="));
         FromOpenAI (Message (audio_delta_event "AAAA"));
         FromTwilio (Text (media_event "BBB=")) ] connected)
  = [ session_update; audio_append (JStr "AAA="); audio_append (JStr "BBB=") ].
Proof.
  apply (media_forwarded_in_order py_format_atoms
           [ FromTwilio (Text (start_event "CA1"));
             FromTwilio (Text (media_event "AAA="));
             FromOpenAI (Message (audio_delta_event "AAAA"));
             FromTwilio (Text (media_event "BBB=")) ]
           (JObj [("event", JStr "start");
                  ("start", JObj [("streamSid", JStr "CA1")])])
           (JStr "CA1")
           [ JObj [("event", JStr "media");
                   ("media", JObj [("payload", JStr "AAA=")])];
             JObj [("event", JStr "media");
                   ("media", JObj [("payload", JStr "BBB=")])] ]
           [ JStr "AAA="; JStr "BBB=" ]).
  - reflexivity.
  - reflexivity.
  - reflexivity.
  - unfold ai_stays_open. simpl. intuition discriminate.
Defined.

(** ** A malformed telephony event (C2) *)

(** [gather] has raised in [handle_media_stream]. *)
Definition aborted (st : call_state) : bool :=
  match inbound st with
  | Raised _ => true
  | _ => false
  end.


(** Text that is not JSON raises in [json.loads]. *)
Lemma not_json_raises st :
  receive_from_twilio_body NotJson st = (Raise JSONDecodeError, st).
Proof. reflexivity. Qed.

(** A [media] event without the [payload] field raises a [KeyError] while
    the AI connection is open. *)
Lemma media_without_payload_raises st other :
  openai_closed st = false ->
  dict_lookup other "payload" = None ->
  receive_from_twilio_body
    (Json (JObj [("event", JStr "media"); ("media", JObj other)])) st
  = (Raise (KeyError "payload"), st).
Proof.
  intros Hclosed Hother.
  unfold receive_from_twilio_body, receive_from_twilio_on, bind, eval, gets. simpl.
  rewrite Hclosed, Hother. reflexivity.
Qed.




(** ** The loop body of [send_to_twilio] *)

Lemma log_event_ok response type st :
  subscript response "type" = Ok type ->
  fst (log_event response st) = Ok tt.
Proof.
  intros H. unfold log_event, bind, eval, print, modify, pass, ret.
  rewrite H. destruct (py_in_list type LOG_EVENT_TYPES); reflexivity.
Qed.

Lemma log_session_updated_ok response type st :
  subscript response "type" = Ok type ->
  fst (log_session_updated response st) = Ok tt.
Proof.
  intros H. unfold log_session_updated, bind, eval, print, modify, pass, ret.
  rewrite H. destruct (py_eq type "session.updated"); reflexivity.
Qed.

Lemma subscript_dict response key v :
  subscript response key = Ok v -> exists items, response = JObj items.
Proof. destruct response; try discriminate. eauto. Qed.

(** Whatever goes wrong in the audio step is caught in it. *)
Lemma forward_audio_ok response type st :
  subscript response "type" = Ok type ->
  fst (forward_audio response st) = Ok tt.
Proof.
  intros H. destruct (subscript_dict _ _ _ H) as [items ->].
  unfold forward_audio, is_audio_delta, try_except, bind, eval, gets, print,
    modify, pass, ret.
  rewrite H. destruct (py_eq type "response.audio.delta"); [ | reflexivity ].
  simpl. destruct (dict_lookup items "delta") as [delta | ]; [ | reflexivity ].
  destruct (py_truthy delta); [ | reflexivity ].
  destruct (Base64.b64decode delta); [ | reflexivity ].
  unfold twilio_send_json. destruct (twilio_connected st); reflexivity.
Qed.

(** An event that declares its type reaches the last statement of the
    body. *)
Lemma send_to_twilio_body_typed fmt response type st :
  subscript response "type" = Ok type ->
  send_to_twilio_body fmt (Json response) st
  = record_content fmt response
      (snd (forward_audio response
              (snd (log_session_updated response
                      (snd (log_event response st)))))).
Proof.
  intros H. unfold send_to_twilio_body.
  rewrite (bind_eq_Ok _ _ st response st) by reflexivity.
  pose proof (log_event_ok response type st H) as H1.
  destruct (log_event response st) as [o1 st1] eqn:E1.
  simpl in H1; subst o1. cbn [snd].
  rewrite (bind_eq_Ok _ _ st tt st1 E1).
  pose proof (log_session_updated_ok response type st1 H) as H2.
  destruct (log_session_updated response st1) as [o2 st2] eqn:E2.
  simpl in H2; subst o2. cbn [snd].
  rewrite (bind_eq_Ok _ _ st1 tt st2 E2).
  pose proof (forward_audio_ok response type st2 H) as H3.
  destruct (forward_audio response st2) as [o3 st3] eqn:E3.
  simpl in H3; subst o3. cbn [snd].
  rewrite (bind_eq_Ok _ _ st2 tt st3 E3).
  reflexivity.
Qed.

(** An event that does not declare its type raises before any effect. *)
Lemma send_to_twilio_body_untyped fmt m st :
  match m with
  | NotJson => True
  | Json response => forall type, subscript response "type" <> Ok type
  end ->
  exists e, send_to_twilio_body fmt m st = (Raise e, st).
Proof.
  destruct m as [ | response]; intros H.
  - exists JSONDecodeError. reflexivity.
  - unfold send_to_twilio_body, log_event, bind, eval. simpl.
    destruct (subscript response "type") as [type | e].
    + contradiction (H type). reflexivity.
    + exists e. reflexivity.
Qed.

Lemma relay_frame_pre response st :
  relay_frame st
    (snd (forward_audio response
            (snd (log_session_updated response
                    (snd (log_event response st)))))).
Proof.
  eapply relay_frame_trans; [ apply log_event_frame | ].
  eapply relay_frame_trans; [ apply log_session_updated_frame | ].
  apply forward_audio_frame.
Qed.

(** ** An exception in the loop of [send_to_twilio] (C3) *)

Lemma aborted_false st :
  aborted st = false -> inbound st = Running \/ inbound st = Returned.
Proof. unfold aborted. destruct (inbound st); auto; discriminate. Qed.

Lemma step_openai fmt st o :
  aborted st = false ->
  step fmt st (FromOpenAI o)
  = match outbound st with
    | Running => send_to_twilio fmt o st
    | _ => st
    end.
Proof.
  intros H. unfold step.
  destruct (aborted_false st H) as [-> | ->]; reflexivity.
Qed.

(** C3 (as amended): an exception raised while an AI event is processed
    (outside the audio step, which catches its own) is caught and printed
    by [send_to_twilio], whose loop it ends although the AI connection has
    not closed: later AI events are not consumed.  The exception does not
    reach [receive_from_twilio] or [gather]. *)
Theorem failing_event_ends_outbound fmt st m e st1 :
  aborted st = false ->
  outbound st = Running ->
  send_to_twilio_body fmt m st = (Raise e, st1) ->
  let st' := step fmt st (FromOpenAI (Message m)) in
  st' = set_outbound Returned
          (set_stdout (stdout st1 ++ [ErrorInSendToTwilio e]) st1) /\
  outbound st' = Returned /\
  inbound st' = inbound st /\
  openai_closed st' = openai_closed st /\
  forall later, run fmt (map FromOpenAI later) st' = st'.
Proof.
  intros Hab Hout Hbody st'.
  assert (Hst' : st' = set_outbound Returned
                         (set_stdout (stdout st1 ++ [ErrorInSendToTwilio e])
                            st1)).
  { unfold st'. rewrite (step_openai fmt st _ Hab), Hout. simpl.
    rewrite Hbody. reflexivity. }
  pose proof (send_to_twilio_body_frame fmt m st) as Hframe.
  rewrite Hbody in Hframe. simpl in Hframe.
  destruct Hframe as (F1 & F2 & F3 & F4 & F5 & F6 & F7).
  split; [ exact Hst' | ]. rewrite Hst'. simpl.
  repeat split; try assumption.
  intros later. induction later as [ | o later IH]; [ reflexivity | ].
  simpl map. rewrite run_cons.
  replace (step fmt _ (FromOpenAI o))
    with (set_outbound Returned
            (set_stdout (stdout st1 ++ [ErrorInSendToTwilio e]) st1)).
  - exact IH.
  - unfold step. simpl. destruct (inbound st1); reflexivity.
Qed.

Lemma failing_event_ends_outbound_witness :
  let st' := step py_format_atoms connected
               (FromOpenAI (Message (Json (JObj [])))) in
  outbound st' = Returned /\
  forall later, run py_format_atoms (map FromOpenAI later) st' = st'.
Proof.
  pose proof (failing_event_ends_outbound py_format_atoms connected
                (Json (JObj [])) (KeyError "type") connected
                eq_refl eq_refl eq_refl) as H.
  cbv zeta in H. split; apply H.
Defined.

(** C3 as stated fails: after an event without a [type] field, the loop of
    [send_to_twilio] has ended with the AI connection still open, and the
    next event is not consumed (nothing enters the transcript). *)
Lemma failing_event_not_skipped :
  let final :=
    handle_media_stream py_format_atoms fs_flat
      [ FromOpenAI (Message (Json (JObj [])));
        FromOpenAI (Message (content_done_event "Hello")) ] in
  outbound final = Returned /\
  openai_closed final = false /\
  conversation_log final = "" /\
  stdout final = [ ClientConnected; SendingSessionUpdate session_update;
                   ErrorInSendToTwilio (KeyError "type") ].
Proof. repeat split. Qed.

(** ** Synthesized audio before the stream identifier is known (C8) *)

Lemma record_content_other fmt response type st :
  subscript response "type" = Ok type ->
  py_eq type "response.content.done" = false ->
  record_content fmt response st = (Ok tt, st).
Proof.
  intros H Hty. unfold record_content, bind, eval. rewrite H, Hty.
  reflexivity.
Qed.

Lemma audio_delta_pre response st :
  subscript response "type" = Ok (JStr "response.audio.delta") ->
  snd (log_session_updated response (snd (log_event response st))) = st.
Proof.
  intros H. unfold log_event, log_session_updated, bind, eval.
  rewrite H. reflexivity.
Qed.

(** C8 (as amended): a [response.audio.delta] event that arrives while
    the stream identifier is unset is neither deferred nor dropped by the
    relay: if its [delta] decodes and the telephony connection is there,
    a [media] frame whose [streamSid] is null is sent to the telephony
    connection.  Whatever the [delta] is, no exception leaves the event:
    both coroutines go on. *)
Theorem audio_delta_before_start_sent fmt st response :
  aborted st = false ->
  outbound st = Running ->
  stream_sid st = JNull ->
  subscript response "type" = Ok (JStr "response.audio.delta") ->
  let st' := step fmt st (FromOpenAI (Message (Json response))) in
  outbound st' = Running /\
  inbound st' = inbound st /\
  forall delta decoded,
    twilio_connected st = true ->
    subscript response "delta" = Ok delta ->
    py_truthy delta = true ->
    Base64.b64decode delta = Ok decoded ->
    twilio_sent st'
    = (twilio_sent st ++ [audio_delta JNull (Base64.b64encode decoded)])%list.
Proof.
  intros Hab Hout Hsid Hty st'.
  assert (Hst' : st' = snd (forward_audio response st)).
  { unfold st'. rewrite (step_openai fmt st _ Hab), Hout. simpl.
    rewrite (send_to_twilio_body_typed fmt response _ st Hty).
    rewrite (record_content_other fmt response _ _ Hty) by reflexivity.
    rewrite (audio_delta_pre response st Hty). reflexivity. }
  rewrite Hst'.
  destruct (forward_audio_frame response st)
    as ((F1 & F2 & F3 & F4 & F5 & F6 & F7) & _).
  repeat split; try congruence.
  intros delta decoded Hconn Hdelta Htruthy Hdec.
  destruct (subscript_dict _ _ _ Hty) as [items ->].
  unfold forward_audio, is_audio_delta, try_except, bind, eval, gets, ret.
  rewrite Hty. simpl. simpl in Hdelta.
  destruct (dict_lookup items "delta") as [d | ]; [ | discriminate Hdelta ].
  inversion Hdelta; subst d. rewrite Htruthy, Hdec.
  unfold twilio_send_json. rewrite Hconn, Hsid. reflexivity.
Qed.

Lemma audio_delta_before_start_sent_witness :
  twilio_sent
    (step py_format_atoms connected
       (FromOpenAI (Message (audio_delta_event "SGVsbG8="))))
  = [ audio_delta JNull "SGVsbG8=" ].
Proof.
  pose proof (audio_delta_before_start_sent py_format_atoms connected
                (JObj [("type", JStr "response.audio.delta");
                       ("delta", JStr "SGVsbG8=")])
                eq_refl eq_refl eq_refl eq_refl) as H.
  cbv zeta in H. destruct H as (_ & _ & H).
  exact (H (JStr "SGVsbG8=") [72; 101; 108; 108; 111]%N
           eq_refl eq_refl eq_refl eq_refl).
Defined.

(** C8 as stated fails: with the stream identifier unset, the frame of an
    audio delta is sent to the telephony connection. *)
Lemma audio_delta_before_start_not_dropped :
  stream_sid connected = JNull /\
  twilio_sent
    (handle_media_stream py_format_atoms fs_flat
       [ FromOpenAI (Message (audio_delta_event "AAAA")) ])
  = [ JObj [ ("event", JStr "media");
             ("streamSid", JNull);
             ("media", JObj [("payload", JStr "AAAA")]) ] ].
Proof. split; reflexivity. Qed.

(** ** The client name is set once (C7) *)

Lemma record_content_name fmt response st :
  client_name st <> Unknown_Client ->
  client_name (snd (record_content fmt response st)) = client_name st.
Proof.
  intros Hname.
  unfold record_content, bind, eval, gets, print, modify, pass, ret.
  destruct (subscript response "type") as [type | e]; [ | reflexivity ].
  destruct (py_eq type "response.content.done"); [ | reflexivity ].
  destruct (py_get response "content" (JStr "")) as [ai_response | e];
    [ | reflexivity ].
  simpl. destruct (str_lower ai_response) as [lowered | e]; [ | reflexivity ].
  simpl. destruct (String.eqb_spec (client_name st) Unknown_Client) as [E | _];
    [ contradiction | ].
  rewrite andb_false_r. reflexivity.
Qed.

Lemma wire_typed (m : wire) :
  (exists response type, m = Json response /\
                         subscript response "type" = Ok type) \/
  match m with
  | NotJson => True
  | Json response => forall type, subscript response "type" <> Ok type
  end.
Proof.
  destruct m as [ | response]; [ right; exact I | ].
  destruct (subscript response "type") as [type | e] eqn:E.
  - left. exists response, type. auto.
  - right. intros type. discriminate.
Qed.

Lemma send_to_twilio_name fmt o st :
  client_name st <> Unknown_Client ->
  client_name (send_to_twilio fmt o st) = client_name st.
Proof.
  intros Hname. destruct o as [m | ]; [ | reflexivity ]. simpl.
  destruct (wire_typed m) as [(response & type & -> & Hty) | Hun].
  - rewrite (send_to_twilio_body_typed fmt response type st Hty).
    destruct (relay_frame_pre response st) as (_ & Hn & _).
    set (st3 := snd (forward_audio response _)) in *.
    assert (H : client_name (snd (record_content fmt response st3))
                = client_name st)
      by (rewrite record_content_name; congruence).
    destruct (record_content fmt response st3) as [[[] | e] st4];
      exact H.
  - destruct (send_to_twilio_body_untyped fmt m st Hun) as [e ->].
    reflexivity.
Qed.

Lemma step_name fmt st i :
  client_name st <> Unknown_Client ->
  client_name (step fmt st i) = client_name st.
Proof.
  intros Hname. unfold step.
  destruct (inbound st); destruct i as [t | o]; try destruct (outbound st);
    try reflexivity;
    first [ apply receive_from_twilio_frame
          | apply send_to_twilio_name; exact Hname ].
Qed.

(** C7: once the client name differs from ["Unknown Client"], no later
    input of the call changes it. *)
Theorem client_name_set_once fmt fs before after :
  client_name (run fmt before connected) <> Unknown_Client ->
  client_name (handle_media_stream fmt fs (before ++ after))
  = client_name (run fmt before connected) /\
  client_name (run fmt (before ++ after) connected)
  = client_name (run fmt before connected).
Proof.
  intros Hname.
  assert (H : forall schedule st,
             client_name st <> Unknown_Client ->
             client_name (run fmt schedule st) = client_name st).
  { induction schedule as [ | i s IH]; intros st Hst; [ reflexivity | ].
    rewrite run_cons, IH; rewrite step_name; auto. }
  assert (Hrun : client_name (run fmt (before ++ after) connected)
                 = client_name (run fmt before connected))
    by (rewrite run_app; apply H; exact Hname).
  split; [ | exact Hrun ].
  destruct (handle_media_stream_frame fmt fs (before ++ after))
    as (_ & -> & _).
  exact Hrun.
Qed.

Lemma client_name_set_once_witness :
  client_name
    (handle_media_stream py_format_atoms fs_flat
       ([ FromOpenAI (Message (content_done_event "My name is Asha")) ]
          ++ [ FromOpenAI (Message (content_done_event "Your name please?"));
               FromOpenAI Closed; FromTwilio End_ ]))
  = client_name
      (run py_format_atoms
         [ FromOpenAI (Message (content_done_event "My name is Asha")) ]
         connected).
Proof.
  refine (proj1 (client_name_set_once py_format_atoms fs_flat
                   [ FromOpenAI (Message (content_done_event "My name is Asha")) ]
                   [ FromOpenAI (Message (content_done_event "Your name please?"));
                     FromOpenAI Closed; FromTwilio End_ ] _)).
  vm_compute. discriminate.
Defined.

(** ** The transcript (C6) *)

Lemma append_nil_r (s : string) : s ++ "" = s.
Proof. induction s as [ | c s IH]; simpl; [ | rewrite IH ]; reflexivity. Qed.

Lemma append_assoc (a b c : string) : (a ++ b) ++ c = a ++ (b ++ c).
Proof. induction a as [ | x a IH]; simpl; [ | rewrite IH ]; reflexivity. Qed.

(** The text a [response.content.done] message produces. *)
Definition produced_text (m : wire) : option string :=
  match m with
  | NotJson => None
  | Json response =>
      match subscript response "type" with
      | Ok type =>
          if py_eq type "response.content.done" then
            match py_get response "content" (JStr "") with
            | Ok (JStr text) => Some text
            | _ => None
            end
          else None
      | Raise _ => None
      end
  end.

(** The texts produced in a schedule, in order of arrival. *)
Fixpoint produced_texts (schedule : list input) : list string :=
  match schedule with
  | [] => []
  | FromOpenAI (Message m) :: rest =>
      match produced_text m with
      | Some text => text :: produced_texts rest
      | None => produced_texts rest
      end
  | _ :: rest => produced_texts rest
  end.

(** The transcript of a list of texts: one line [AI: text] for each. *)
Fixpoint transcript_of (texts : list string) : string :=
  match texts with
  | [] => ""
  | text :: rest => "AI: " ++ text ++ Str.newline ++ transcript_of rest
  end.


Lemma transcript_of_app l1 l2 :
  transcript_of (l1 ++ l2) = transcript_of l1 ++ transcript_of l2.
Proof.
  induction l1 as [ | t l1 IH]; [ reflexivity | ].
  simpl. rewrite IH, !append_assoc. reflexivity.
Qed.

Lemma produced_texts_app s1 s2 :
  produced_texts (s1 ++ s2) = (produced_texts s1 ++ produced_texts s2)%list.
Proof.
  induction s1 as [ | i s1 IH]; [ reflexivity | ].
  destruct i as [t | [m | ]]; simpl; try exact IH.
  destruct (produced_text m); simpl; rewrite IH; reflexivity.
Qed.












(** ** The name heuristic (C10) *)

Lemma last_cons (l : list string) :
  forall a c, last (a :: l) c = last l a.
Proof.
  induction l as [ | b l IH]; intros a c; [ reflexivity | ].
  change (last (a :: b :: l) c) with (last (b :: l) c).
  rewrite (IH b c), (IH b a). reflexivity.
Qed.

Lemma py_last_cons c l x : py_last l = Ok x -> py_last (c :: l) = Ok x.
Proof.
  destruct l as [ | a l]; [ discriminate | ]. unfold py_last. intros H.
  rewrite last_cons. exact H.
Qed.

(** A text without an occurrence of ["name"] is its own only piece. *)
Lemma split_no_occurrence s :
  Str.contains "name" s = false ->
  forall cur, Str.split_from "name" 0 cur s = [cur ++ s].
Proof.
  induction s as [ | c s IH]; intros H cur.
  - simpl. rewrite append_nil_r. reflexivity.
  - cbn [Str.contains] in H. cbn [Str.split_from].
    destruct (prefix "name" (String c s)); [ discriminate H | ].
    rewrite (IH H), append_assoc. reflexivity.
Qed.

Lemma prefix_nil s : prefix "" s = true.
Proof. destruct s; reflexivity. Qed.

Lemma split_at_occurrence cur suf :
  Str.contains "name" suf = false ->
  Str.split_from "name" 0 cur ("name" ++ suf) = [cur; suf].
Proof.
  intros Hsuf. simpl. rewrite prefix_nil.
  rewrite (split_no_occurrence suf Hsuf). reflexivity.
Qed.

(** The last piece is what follows the last occurrence of ["name"]. *)
Lemma split_last_occurrence n :
  forall pre cur suf,
    String.length pre <= n ->
    Str.contains "name" suf = false ->
    py_last (Str.split_from "name" 0 cur (pre ++ "name" ++ suf)) = Ok suf.
Proof.
  induction n as [ | n IH]; intros pre cur suf Hlen Hsuf.
  - destruct pre; [ | simpl in Hlen; lia ].
    change ("" ++ "name" ++ suf) with ("name" ++ suf).
    rewrite (split_at_occurrence cur suf Hsuf). reflexivity.
  - destruct pre as [ | c pre].
    { change ("" ++ "name" ++ suf) with ("name" ++ suf).
      rewrite (split_at_occurrence cur suf Hsuf). reflexivity. }
    change (String c pre ++ "name" ++ suf)
      with (String c (pre ++ "name" ++ suf)).
    cbn [Str.split_from].
    destruct (prefix "name" (String c (pre ++ "name" ++ suf))) eqn:P.
    + apply py_last_cons.
      destruct pre as [ | a1 [ | a2 [ | a3 pre]]];
        cbn [prefix append] in P;
        repeat match type of P with
               | context [ascii_dec ?x ?y] =>
                   destruct (ascii_dec x y) as [E | E];
                   try discriminate E; try discriminate P; clear E
               end.
      cbn [append Str.split_from String.length Nat.sub].
      apply IH; [ simpl in Hlen; lia | exact Hsuf ].
    + apply IH; [ simpl in Hlen; lia | exact Hsuf ].
Qed.

(** *** Occurrences of a text in another *)

Lemma prefix_app sub m b :
  prefix sub m = true -> prefix sub (m ++ b) = true.
Proof.
  revert m. induction sub as [ | c sub IH]; intros m H.
  - apply prefix_nil.
  - destruct m as [ | d m]; [ discriminate H | ].
    cbn [append prefix] in *.
    destruct (ascii_dec c d); [ apply IH; exact H | discriminate H ].
Qed.

Lemma contains_app_l sub m b :
  Str.contains sub m = true -> Str.contains sub (m ++ b) = true.
Proof.
  induction m as [ | c m IH]; intros H.
  - cbn [Str.contains] in H.
    destruct (prefix sub "") eqn:P; [ | discriminate H ].
    destruct sub; [ | discriminate P ].
    destruct b; reflexivity.
  - cbn [Str.contains append] in *.
    destruct (prefix sub (String c m)) eqn:P.
    + pose proof (prefix_app sub (String c m) b P) as P'.
      cbn [append] in P'. rewrite P'. reflexivity.
    + rewrite (IH H). destruct (prefix sub (String c (m ++ b))); reflexivity.
Qed.

Lemma contains_app_r sub a m :
  Str.contains sub m = true -> Str.contains sub (a ++ m) = true.
Proof.
  intros H. induction a as [ | c a IH]; [ exact H | ].
  cbn [append Str.contains]. rewrite IH.
  destruct (prefix sub (String c (a ++ m))); reflexivity.
Qed.

Lemma contains_tail sub c s :
  Str.contains sub (String c s) = false -> Str.contains sub s = false.
Proof.
  cbn [Str.contains]. destruct (prefix sub (String c s)); [ discriminate | ].
  auto.
Qed.

Lemma prefix_name s :
  prefix "name" s = true -> exists suf, s = "name" ++ suf.
Proof.
  destruct s as [ | c1 [ | c2 [ | c3 [ | c4 suf]]]]; cbn [prefix];
    repeat match goal with
           | |- context [ascii_dec ?x ?y] =>
               destruct (ascii_dec x y) as [<- | ]; try discriminate
           end;
    try discriminate.
  intros _. exists suf. reflexivity.
Qed.

(** A text with an occurrence of ["name"] has a last one. *)
Lemma last_occurrence s :
  Str.contains "name" s = true ->
  exists pre suf,
    s = pre ++ "name" ++ suf /\ Str.contains "name" suf = false.
Proof.
  induction s as [ | c s IH]; intros H; [ discriminate H | ].
  destruct (Str.contains "name" s) eqn:E.
  - destruct (IH eq_refl) as (pre & suf & -> & Hsuf).
    exists (String c pre), suf. split; [ reflexivity | exact Hsuf ].
  - cbn [Str.contains] in H. rewrite E in H.
    destruct (prefix "name" (String c s)) eqn:P; [ | discriminate H ].
    destruct (prefix_name _ P) as [suf Hs].
    exists "", suf. split; [ exact Hs | ].
    inversion Hs; subst.
    apply (contains_tail "name" "e"), (contains_tail "name" "m"),
      (contains_tail "name" "a"). exact E.
Qed.

Lemma lower_app a b : Str.lower (a ++ b) = Str.lower a ++ Str.lower b.
Proof.
  induction a as [ | c a IH]; [ reflexivity | ].
  simpl. rewrite IH. reflexivity.
Qed.

(** *** The words of the claim *)

(** [sub] occurs in [s]. *)
Definition occurs (sub s : string) : Prop := exists a b, s = a ++ sub ++ b.

(** ["name"] written in some letter case. *)
Definition name_in_some_case (w : string) : Prop :=
  exists n a m e,
    w = String n (String a (String m (String e ""))) /\
    (n = "n"%char \/ n = "N"%char) /\
    (a = "a"%char \/ a = "A"%char) /\
    (m = "m"%char \/ m = "M"%char) /\
    (e = "e"%char \/ e = "E"%char).

(** The text contains ["name"] case-insensitively. *)
Definition mentions_name (text : string) : Prop :=
  exists w, name_in_some_case w /\ occurs w text.

(** The portion of a text after its last lower-case ["name"]; the whole
    text when it has none. *)
Definition rest_after_last_name (text rest : string) : Prop :=
  (exists pre, text = pre ++ "name" ++ rest /\ ~ occurs "name" rest) \/
  (~ occurs "name" text /\ rest = text).

(** The code points below 256 that are whitespace to Python: the tab, the
    line feed, the vertical tab, the form feed, the carriage return, the
    four separators 0x1C-0x1F, the space, the next-line control 0x85 and
    the no-break space 0xA0. *)
Definition whitespace : list N := [9; 10; 11; 12; 13; 28; 29; 30; 31; 32; 133; 160]%N.

Definition is_whitespace (c : ascii) : bool :=
  existsb (N.eqb (N_of_ascii c)) whitespace.

(** A text made of whitespace only. *)
Fixpoint blank (s : string) : bool :=
  match s with
  | EmptyString => true
  | String c s' => is_whitespace c && blank s'
  end.

Definition first_char (s : string) : option ascii :=
  match s with
  | EmptyString => None
  | String c _ => Some c
  end.

Fixpoint last_char (s : string) : option ascii :=
  match s with
  | EmptyString => None
  | String c EmptyString => Some c
  | String _ s' => last_char s'
  end.

(** A text that neither starts nor ends with whitespace. *)
Definition trimmed (s : string) : bool :=
  match first_char s with
  | Some c => negb (is_whitespace c)
  | None => true
  end
  && match last_char s with
     | Some c => negb (is_whitespace c)
     | None => true
     end.

(** [core] is [s] stripped of surrounding whitespace. *)
Definition strips_to (s core : string) : Prop :=
  exists l r,
    s = l ++ core ++ r /\ blank l = true /\ blank r = true /\
    trimmed core = true.

(** The name the heuristic takes from a text. *)
Definition name_from (text name : string) : Prop :=
  mentions_name text /\
  exists rest, rest_after_last_name text rest /\ strips_to rest name.

(** *** [in], [lower], [split] and [strip] do what these words say *)

Lemma prefix_spec sub s : prefix sub s = true <-> exists b, s = sub ++ b.
Proof.
  revert s. induction sub as [ | c sub IH]; intros s.
  - rewrite prefix_nil. split; [ intros _; exists s | ]; reflexivity.
  - destruct s as [ | d s].
    + split; [ discriminate | intros [b H]; discriminate H ].
    + cbn [prefix append]. destruct (ascii_dec c d) as [-> | Hne].
      * rewrite IH. split; intros [b H]; exists b;
          [ rewrite H; reflexivity | injection H as H; exact H ].
      * split; [ discriminate | ].
        intros [b H]. injection H as H1 H2. contradiction Hne.
        symmetry. exact H1.
Qed.

Lemma prefix_contains sub s :
  prefix sub s = true -> Str.contains sub s = true.
Proof. intros H. destruct s; cbn [Str.contains]; rewrite H; reflexivity. Qed.

Lemma contains_occurs sub s : Str.contains sub s = true <-> occurs sub s.
Proof.
  split.
  - induction s as [ | c s IH]; cbn [Str.contains].
    + destruct (prefix sub "") eqn:P; [ | discriminate ].
      intros _. destruct (proj1 (prefix_spec sub "") P) as [b H].
      exists "", b. exact H.
    + destruct (prefix sub (String c s)) eqn:P.
      * intros _. destruct (proj1 (prefix_spec sub _) P) as [b H].
        exists "", b. exact H.
      * intros H. destruct (IH H) as (a & b & ->).
        exists (String c a), b. reflexivity.
  - intros (a & b & ->). apply contains_app_r, prefix_contains, prefix_spec.
    exists b. reflexivity.
Qed.

Lemma not_occurs_contains sub s :
  ~ occurs sub s -> Str.contains sub s = false.
Proof.
  intros H. destruct (Str.contains sub s) eqn:E; [ | reflexivity ].
  contradiction H. apply contains_occurs. exact E.
Qed.

Lemma contains_not_occurs sub s :
  Str.contains sub s = false -> ~ occurs sub s.
Proof.
  intros E H. apply contains_occurs in H. rewrite H in E. discriminate E.
Qed.

Lemma occurs_inside sub a m b : occurs sub m -> occurs sub (a ++ m ++ b).
Proof.
  intros (x & y & ->). exists (a ++ x), (y ++ b).
  rewrite !append_assoc. reflexivity.
Qed.

Lemma lower_app_inv t :
  forall a b,
    Str.lower t = a ++ b ->
    exists a' b', t = a' ++ b' /\ Str.lower a' = a /\ Str.lower b' = b.
Proof.
  induction t as [ | c t IH]; intros a b H.
  - destruct a; [ | discriminate H ]. simpl in H. subst b.
    exists "", "". repeat split.
  - destruct a as [ | d a].
    + exists "", (String c t). repeat split. exact H.
    + simpl in H. injection H as Hd Ht.
      destruct (IH a b Ht) as (a' & b' & -> & Ha & Hb).
      exists (String c a'), b'. simpl. rewrite Ha, Hd. repeat split.
      exact Hb.
Qed.

Lemma lower_char_n c :
  Str.lower_char c = "n"%char -> c = "n"%char \/ c = "N"%char.
Proof.
  destruct c as [[] [] [] [] [] [] [] []]; vm_compute; intros H;
    try discriminate H; auto.
Qed.

Lemma lower_char_a c :
  Str.lower_char c = "a"%char -> c = "a"%char \/ c = "A"%char.
Proof.
  destruct c as [[] [] [] [] [] [] [] []]; vm_compute; intros H;
    try discriminate H; auto.
Qed.

Lemma lower_char_m c :
  Str.lower_char c = "m"%char -> c = "m"%char \/ c = "M"%char.
Proof.
  destruct c as [[] [] [] [] [] [] [] []]; vm_compute; intros H;
    try discriminate H; auto.
Qed.

Lemma lower_char_e c :
  Str.lower_char c = "e"%char -> c = "e"%char \/ c = "E"%char.
Proof.
  destruct c as [[] [] [] [] [] [] [] []]; vm_compute; intros H;
    try discriminate H; auto.
Qed.

(** ["name" in text.lower()] holds of the texts with ["name"] in some
    letter case, and of no other. *)
Lemma mentions_name_lower text :
  mentions_name text <-> Str.contains "name" (Str.lower text) = true.
Proof.
  split.
  - intros (w & (n & a & m & e & -> & Hn & Ha & Hm & He) & (x & y & ->)).
    rewrite !lower_app. apply contains_app_r, contains_app_l.
    destruct Hn as [-> | ->], Ha as [-> | ->], Hm as [-> | ->],
      He as [-> | ->]; reflexivity.
  - intros H. apply contains_occurs in H. destruct H as (x & y & H).
    destruct (lower_app_inv text x ("name" ++ y) H) as (x' & t & -> & _ & Ht).
    destruct (lower_app_inv t "name" y Ht) as (w & y' & -> & Hw & _).
    exists w. split; [ | exists x', y'; reflexivity ].
    destruct w as [ | n [ | a [ | m [ | e [ | ? ? ]]]]]; try discriminate Hw.
    simpl in Hw. injection Hw as Hn Ha Hm He.
    exists n, a, m, e. split; [ reflexivity | ].
    auto using lower_char_n, lower_char_a, lower_char_m, lower_char_e.
Qed.

(** Every text has a portion after its last ["name"], and it is the last
    piece of [split("name")]. *)
Lemma rest_after_last_name_total text :
  exists rest, rest_after_last_name text rest.
Proof.
  destruct (Str.contains "name" text) eqn:E.
  - destruct (last_occurrence text E) as (pre & suf & -> & Hsuf).
    exists suf. left. exists pre. split; [ reflexivity | ].
    apply contains_not_occurs, Hsuf.
  - exists text. right. split; [ | reflexivity ].
    apply contains_not_occurs, E.
Qed.

Lemma split_rest text rest :
  rest_after_last_name text rest ->
  py_last (Str.split "name" text) = Ok rest.
Proof.
  unfold Str.split. intros [(pre & -> & H) | (H & ->)].
  - apply (split_last_occurrence (String.length pre)); [ apply le_n | ].
    apply not_occurs_contains, H.
  - rewrite (split_no_occurrence text (not_occurs_contains _ _ H)).
    reflexivity.
Qed.

Lemma isspace_whitespace c : Str.isspace c = is_whitespace c.
Proof. destruct c as [[] [] [] [] [] [] [] []]; reflexivity. Qed.

Lemma rstrip_blank r : blank r = true -> Str.rstrip r = "".
Proof.
  induction r as [ | c r IH]; [ reflexivity | ].
  cbn [blank Str.rstrip]. intros H. apply andb_prop in H as [Hc Hr].
  rewrite (IH Hr), isspace_whitespace, Hc. reflexivity.
Qed.

Lemma rstrip_app_blank s r :
  blank r = true -> Str.rstrip (s ++ r) = Str.rstrip s.
Proof.
  intros Hr. induction s as [ | c s IH].
  - apply rstrip_blank, Hr.
  - cbn [append Str.rstrip]. rewrite IH. reflexivity.
Qed.

Lemma rstrip_last s c :
  Str.isspace c = false ->
  Str.rstrip (s ++ String c "") = s ++ String c "".
Proof.
  intros Hc. induction s as [ | d s IH].
  - cbn [append Str.rstrip Str.is_empty]. rewrite Hc. reflexivity.
  - cbn [append Str.rstrip]. rewrite IH.
    destruct s; reflexivity.
Qed.

Lemma lstrip_app_blank l s :
  blank l = true -> Str.lstrip (l ++ s) = Str.lstrip s.
Proof.
  induction l as [ | c l IH]; [ reflexivity | ].
  cbn [blank append Str.lstrip]. intros H. apply andb_prop in H as [Hc Hl].
  rewrite isspace_whitespace, Hc. apply IH, Hl.
Qed.

Lemma last_char_app s c : last_char (s ++ String c "") = Some c.
Proof.
  induction s as [ | d s IH]; [ reflexivity | ].
  cbn [append last_char].
  destruct (s ++ String c "") eqn:E; [ destruct s; discriminate E | ].
  exact IH.
Qed.

Lemma string_last_case s :
  s = "" \/ exists l c, s = l ++ String c "".
Proof.
  induction s as [ | d s [-> | (l & c & ->)]]; [ left; reflexivity | | ];
    right.
  - exists "", d. reflexivity.
  - exists (String d l), c. reflexivity.
Qed.

(** [strip] gives the stripped text, which is unique. *)
Lemma strips_to_strip s core : strips_to s core -> Str.strip s = core.
Proof.
  intros (l & r & -> & Hl & Hr & Ht). unfold Str.strip.
  rewrite <- append_assoc, (rstrip_app_blank _ r Hr).
  apply andb_prop in Ht as [Hfirst Hlast].
  destruct (string_last_case core) as [-> | (k & c & ->)].
  - rewrite append_nil_r, (rstrip_blank l Hl). reflexivity.
  - rewrite last_char_app in Hlast.
    rewrite <- append_assoc, rstrip_last
      by (rewrite isspace_whitespace; destruct (is_whitespace c);
          [ discriminate Hlast | reflexivity ]).
    rewrite append_assoc, (lstrip_app_blank l _ Hl).
    destruct k as [ | d k]; cbn [append first_char] in *;
      cbn [Str.lstrip]; rewrite isspace_whitespace;
      [ destruct (is_whitespace c) | destruct (is_whitespace d) ];
      first [ discriminate Hfirst | reflexivity ].
Qed.

Lemma rstrip_split s : exists b, s = Str.rstrip s ++ b /\ blank b = true.
Proof.
  induction s as [ | c s (b & IH & Hb)]; [ exists ""; split; reflexivity | ].
  cbn [Str.rstrip]. cbv zeta.
  destruct (Str.rstrip s) as [ | d r] eqn:E; cbn [Str.is_empty andb].
  - destruct (Str.isspace c) eqn:Hc.
    + exists (String c s). split; [ reflexivity | ].
      cbn [blank]. rewrite <- isspace_whitespace, Hc, IH. exact Hb.
    + exists b. split; [ rewrite IH at 1; reflexivity | exact Hb ].
  - exists b. split; [ rewrite IH at 1; reflexivity | exact Hb ].
Qed.

Lemma lstrip_split s : exists a, s = a ++ Str.lstrip s /\ blank a = true.
Proof.
  induction s as [ | c s (a & IH & Ha)]; [ exists ""; split; reflexivity | ].
  cbn [Str.lstrip]. destruct (Str.isspace c) eqn:Hc.
  - exists (String c a). split; [ simpl; rewrite <- IH; reflexivity | ].
    cbn [blank]. rewrite <- isspace_whitespace, Hc. exact Ha.
  - exists "". split; reflexivity.
Qed.

Lemma lstrip_first s c :
  first_char (Str.lstrip s) = Some c -> Str.isspace c = false.
Proof.
  induction s as [ | d s IH]; [ discriminate | ].
  cbn [Str.lstrip]. destruct (Str.isspace d) eqn:Hd; [ exact IH | ].
  intros H. injection H as <-. exact Hd.
Qed.

Lemma rstrip_last_char s c :
  last_char (Str.rstrip s) = Some c -> Str.isspace c = false.
Proof.
  induction s as [ | d s IH]; [ discriminate | ].
  cbn [Str.rstrip]. cbv zeta.
  destruct (Str.rstrip s) as [ | e r] eqn:E; cbn [Str.is_empty andb].
  - destruct (Str.isspace d) eqn:Hd; [ discriminate | ].
    intros H. injection H as <-. exact Hd.
  - exact IH.
Qed.

Lemma lstrip_last_char s c :
  last_char (Str.lstrip s) = Some c -> last_char s = Some c.
Proof.
  induction s as [ | d s IH]; [ discriminate | ].
  cbn [Str.lstrip]. destruct (Str.isspace d); [ | auto ].
  intros H. specialize (IH H). cbn [last_char].
  destruct s; [ discriminate IH | exact IH ].
Qed.

Lemma strip_strips_to s : strips_to s (Str.strip s).
Proof.
  destruct (rstrip_split s) as (b & Hs & Hb).
  destruct (lstrip_split (Str.rstrip s)) as (a & Hr & Ha).
  exists a, b. fold (Str.strip s) in Hr.
  split; [ rewrite <- append_assoc, <- Hr; exact Hs | ].
  split; [ exact Ha | ]. split; [ exact Hb | ].
  unfold trimmed. apply andb_true_intro. split.
  - destruct (first_char (Str.strip s)) as [c | ] eqn:E; [ | reflexivity ].
    rewrite <- isspace_whitespace, (lstrip_first _ c E). reflexivity.
  - destruct (last_char (Str.strip s)) as [c | ] eqn:E; [ | reflexivity ].
    rewrite <- isspace_whitespace,
      (rstrip_last_char s c (lstrip_last_char _ c E)).
    reflexivity.
Qed.

Lemma record_content_sets_name fmt response text st :
  client_name st = Unknown_Client ->
  subscript response "type" = Ok (JStr "response.content.done") ->
  py_get response "content" (JStr "") = Ok (JStr text) ->
  Str.contains "name" (Str.lower text) = true ->
  forall piece,
    py_last (Str.split "name" text) = Ok piece ->
    record_content fmt response st
    = (Ok tt,
       set_client_name (Str.strip piece)
         (set_conversation_log
            (conversation_log st ++ "AI: " ++ text ++ Str.newline)
            (set_stdout (stdout st ++ [AiSays (JStr text)]) st))).
Proof.
  intros Hname Hty Hcontent Hin piece Hpiece.
  unfold record_content, bind, eval, gets, print, modify, pass, ret.
  rewrite Hty. cbn [py_eq]. rewrite String.eqb_refl. rewrite Hcontent.
  cbn [str_lower str_split fstring client_name set_conversation_log
         set_stdout conversation_log].
  rewrite Hin, Hname, String.eqb_refl. cbn [andb]. rewrite Hpiece.
  reflexivity.
Qed.

(** C10: for a [response.content.done] text that contains ["name"] in some
    letter case, received while the client name is ["Unknown Client"],
    the name stored is the portion of the text after its last lower-case
    ["name"], stripped of surrounding whitespace; it is the whole text
    (stripped likewise) when ["name"] occurs in another letter case only,
    and the empty string when the text ends with a lower-case ["name"]. *)
Theorem name_is_text_after_last_name fmt st response text :
  aborted st = false ->
  outbound st = Running ->
  client_name st = Unknown_Client ->
  subscript response "type" = Ok (JStr "response.content.done") ->
  subscript response "content" = Ok (JStr text) ->
  mentions_name text ->
  let st' := step fmt st (FromOpenAI (Message (Json response))) in
  (forall pre suf core,
      text = pre ++ "name" ++ suf ->
      ~ occurs "name" suf ->
      strips_to suf core ->
      client_name st' = core) /\
  (forall core,
      ~ occurs "name" text ->
      strips_to text core ->
      client_name st' = core) /\
  (forall pre, text = pre ++ "name" -> client_name st' = "") /\
  name_from text (client_name st').
Proof.
  intros Hab Hout Hname Hty Hcontent Hmentions st'.
  assert (Hin : Str.contains "name" (Str.lower text) = true)
    by (apply mentions_name_lower, Hmentions).
  assert (Hget : py_get response "content" (JStr "") = Ok (JStr text)).
  { destruct (subscript_dict _ _ _ Hty) as [items ->].
    simpl in *. destruct (dict_lookup items "content"); [ | discriminate ].
    exact Hcontent. }
  assert (Hst' : forall rest,
             rest_after_last_name text rest ->
             client_name st' = Str.strip rest).
  { intros rest Hrest. unfold st'.
    rewrite (step_openai fmt st _ Hab), Hout. cbn [send_to_twilio].
    rewrite (send_to_twilio_body_typed fmt response _ st Hty).
    destruct (relay_frame_pre response st) as (_ & Hn & _).
    set (st3 := snd (forward_audio response _)) in *.
    rewrite (record_content_sets_name fmt response text st3) with (piece := rest);
      try assumption; [ reflexivity | congruence | ].
    apply split_rest, Hrest. }
  assert (Hlast : forall pre suf core,
             text = pre ++ "name" ++ suf ->
             ~ occurs "name" suf ->
             strips_to suf core ->
             client_name st' = core).
  { intros pre suf core Htext Hsuf Hcore.
    rewrite <- (strips_to_strip suf core Hcore). apply Hst'.
    left. exists pre. split; assumption. }
  split; [ exact Hlast | split; [ | split ] ].
  - intros core Hnone Hcore.
    rewrite <- (strips_to_strip text core Hcore). apply Hst'.
    right. split; [ exact Hnone | reflexivity ].
  - intros pre Htext. apply (Hlast pre "" "").
    + rewrite Htext. reflexivity.
    + apply contains_not_occurs. reflexivity.
    + exists "", "". repeat split.
  - split; [ exact Hmentions | ].
    destruct (rest_after_last_name_total text) as [rest Hrest].
    exists rest. split; [ exact Hrest | ].
    rewrite (Hst' rest Hrest). apply strip_strips_to.
Qed.

Lemma name_is_text_after_last_name_witness :
  client_name
    (step py_format_atoms connected
       (FromOpenAI (Message (content_done_event "My Name? My name is Asha. "))))
  = "is Asha." /\
  client_name
    (step py_format_atoms connected
       (FromOpenAI (Message (content_done_event "  May I know your Name?  "))))
  = "May I know your Name?" /\
  client_name
    (step py_format_atoms connected
       (FromOpenAI (Message (content_done_event "Please tell me your name"))))
  = "".
Proof.
  split; [ | split ].
  - refine (proj1 (name_is_text_after_last_name py_format_atoms connected
                     (JObj [("type", JStr "response.content.done");
                            ("content", JStr "My Name? My name is Asha. ")])
                     "My Name? My name is Asha. "
                     eq_refl eq_refl eq_refl eq_refl eq_refl _)
              "My Name? My " " is Asha. " "is Asha." eq_refl _ _).
    + exists "Name". split.
      * exists "N"%char, "a"%char, "m"%char, "e"%char. repeat split; auto.
      * exists "My ", "? My name is Asha. ". reflexivity.
    + apply contains_not_occurs. reflexivity.
    + exists " ", " ". repeat split.
  - refine (proj1 (proj2 (name_is_text_after_last_name py_format_atoms
                            connected
                            (JObj [("type", JStr "response.content.done");
                                   ("content", JStr "  May I know your Name?  ")])
                            "  May I know your Name?  "
                            eq_refl eq_refl eq_refl eq_refl eq_refl _))
              "May I know your Name?" _ _).
    + exists "Name". split.
      * exists "N"%char, "a"%char, "m"%char, "e"%char. repeat split; auto.
      * exists "  May I know your ", "?  ". reflexivity.
    + apply contains_not_occurs. reflexivity.
    + exists "  ", "  ". repeat split.
  - refine (proj1 (proj2 (proj2 (name_is_text_after_last_name py_format_atoms
                                   connected
                                   (JObj [("type", JStr "response.content.done");
                                          ("content", JStr "Please tell me your name")])
                                   "Please tell me your name"
                                   eq_refl eq_refl eq_refl eq_refl eq_refl _)))
              "Please tell me your " eq_refl).
    exists "name". split.
    + exists "n"%char, "a"%char, "m"%char, "e"%char. repeat split; auto.
    + exists "Please tell me your ", "". reflexivity.
Defined.

(** ** Whole calls on examples *)

(** A call delivers [start] and two [media] frames, the AI connection
    closes and the caller hangs up: the two payloads reach the AI
    connection in order, and an empty transcript is stored under the
    default name. *)
Example call_two_frames :
  let final :=
    handle_media_stream py_format_atoms fs_flat
      [ FromTwilio (Text (start_event "CA1"));
        FromTwilio (Text (media_event "AAA="));
        FromTwilio (Text (media_event "BBB="));
        FromOpenAI Closed;
        FromTwilio End_ ] in
  openai_sent final
  = [ session_update; audio_append (JStr "AAA="); audio_append (JStr "BBB=") ] /\
  stream_sid final = JStr "CA1" /\
  twilio_sent final = [] /\
  files final = [ ("Unknown_Client_loan_conversation.txt", "") ] /\
  stdout final
  = [ ClientConnected; SendingSessionUpdate session_update;
      IncomingStreamStarted (JStr "CA1");
      ConversationStored "Unknown_Client_loan_conversation.txt" ].
Proof. repeat split. Qed.

(** The caller hangs up first: [receive_from_twilio] returns, the AI
    connection stays open, and while [send_to_twilio] waits on it nothing
    is stored. *)
Example call_hang_up :
  let final :=
    handle_media_stream py_format_atoms fs_flat
      [ FromTwilio (Text (start_event "CA1"));
        FromOpenAI (Message (content_done_event "Namaste!"));
        FromTwilio End_ ] in
  inbound final = Returned /\
  outbound final = Running /\
  openai_closed final = false /\
  files final = [].
Proof. repeat split. Qed.

(** An AI event without a [type] ends the loop of [send_to_twilio]; the
    AI peer then goes away, which nobody reads; the next [media] event is
    sent on a transport that is closing: [send_json] raises out of
    [receive_from_twilio], and the call ends with nothing stored. *)
Example call_send_after_unseen_close :
  let final :=
    handle_media_stream py_format_atoms fs_flat
      [ FromTwilio (Text (start_event "CA1"));
        FromOpenAI (Message (Json (JObj [])));
        FromTwilio (LinkDown (media_event "AAA="));
        FromTwilio (Text (media_event "BBB="));
        FromTwilio End_ ] in
  inbound final = Raised ClientConnectionResetError /\
  outbound final = Returned /\
  openai_closed final = false /\
  openai_sent final = [ session_update ] /\
  files final = [].
Proof. repeat split. Qed.

(** A name the file system refuses: [open] raises in
    [store_conversation], and the call ends without a file and without
    the line that tells of one. *)
Example call_name_refused :
  let final :=
    handle_media_stream py_format_atoms fs_flat
      [ FromOpenAI (Message (content_done_event "Your name? 24/7 Loans here."));
        FromOpenAI Closed;
        FromTwilio End_ ] in
  client_name final = "? 24/7 Loans here." /\
  filename_of (client_name final) = "?_24/7_Loans_here._loan_conversation.txt" /\
  files final = [] /\
  stdout final
  = [ ClientConnected; SendingSessionUpdate session_update;
      ReceivedEvent (JStr "response.content.done")
        (JObj [("type", JStr "response.content.done");
               ("content", JStr "Your name? 24/7 Loans here.")]);
      AiSays (JStr "Your name? 24/7 Loans here.") ].
Proof. repeat split. Qed.

(** After [start], an audio delta is framed with the stream identifier. *)
Example call_audio_delta :
  twilio_sent
    (handle_media_stream py_format_atoms fs_flat
       [ FromTwilio (Text (start_event "CA1"));
         FromOpenAI (Message (audio_delta_event "SGVsbG8=")) ])
  = [ audio_delta (JStr "CA1") "SGVsbG8=" ].
Proof. reflexivity. Qed.

(** A delta that does not decode is printed and skipped; the loop goes on. *)
Example call_bad_delta :
  let final :=
    handle_media_stream py_format_atoms fs_flat
      [ FromOpenAI (Message (audio_delta_event "SGVsbG8"));
        FromOpenAI (Message (audio_delta_event "SGVsbG8=")) ] in
  twilio_sent final = [ audio_delta JNull "SGVsbG8=" ] /\
  outbound final = Running /\
  stdout final = [ ClientConnected; SendingSessionUpdate session_update;
                   ErrorProcessingAudio Base64Error ].
Proof. repeat split. Qed.

(** With a [media] event after the AI connection has closed, nothing is
    forwarded and nothing is raised. *)
Example call_media_after_close :
  let final :=
    handle_media_stream py_format_atoms fs_flat
      [ FromOpenAI Closed; FromTwilio (Text (media_event "AAA=")) ] in
  openai_sent final = [ session_update ] /\ inbound final = Running.
Proof. repeat split. Qed.

(** * Further properties of the relay *)

(** ** Telephony events that are not forwarded *)

(** X1: a telephony event whose [event] field is neither ["media"] nor
    ["start"] (a [connected], [stop] or [mark] event, say) is ignored:
    nothing is sent, printed or raised, and no variable changes. *)
Theorem other_telephony_event_ignored fmt st data event :
  subscript data "event" = Ok event ->
  py_eq event "media" = false ->
  py_eq event "start" = false ->
  step fmt st (FromTwilio (Text (Json data))) = st.
Proof.
  intros Hev Hmedia Hstart. unfold step.
  destruct (inbound st); try reflexivity. simpl.
  unfold receive_from_twilio_body, receive_from_twilio_on, bind, eval, gets, pass, ret. simpl.
  rewrite Hev, Hmedia. simpl. rewrite Hstart. reflexivity.
Qed.

Lemma other_telephony_event_ignored_witness :
  step py_format_atoms connected
    (FromTwilio (Text (Json (JObj [("event", JStr "stop");
                                   ("streamSid", JStr "CA1")]))))
  = connected.
Proof.
  apply (other_telephony_event_ignored py_format_atoms connected
           (JObj [("event", JStr "stop"); ("streamSid", JStr "CA1")])
           (JStr "stop")); reflexivity.
Defined.

(** X2: once the AI connection is closed, a [media] event is dropped
    whatever its shape: even one without its [media] or [payload] field
    raises nothing. *)
Theorem media_dropped_when_ai_closed fmt st data :
  openai_closed st = true ->
  subscript data "event" = Ok (JStr "media") ->
  step fmt st (FromTwilio (Text (Json data))) = st.
Proof.
  intros Hclosed Hev. unfold step.
  destruct (inbound st); try reflexivity. simpl.
  unfold receive_from_twilio_body, receive_from_twilio_on, bind, eval, gets, pass, ret. simpl.
  rewrite Hev, Hclosed. reflexivity.
Qed.

Lemma media_dropped_when_ai_closed_witness :
  let st := step py_format_atoms connected (FromOpenAI Closed) in
  step py_format_atoms st (FromTwilio (Text (Json (JObj [("event", JStr "media")]))))
  = st.
Proof.
  apply (media_dropped_when_ai_closed py_format_atoms
           (step py_format_atoms connected (FromOpenAI Closed))
           (JObj [("event", JStr "media")])); reflexivity.
Defined.

Lemma send_to_twilio_closed fmt o st :
  openai_closed st = true ->
  openai_closed (send_to_twilio fmt o st) = true.
Proof.
  intros Hclosed. destruct o as [m | ]; [ | reflexivity ]. simpl.
  pose proof (send_to_twilio_body_frame fmt m st) as (_ & G & _).
  destruct (send_to_twilio_body fmt m st) as [[[] | e] st1];
    simpl in *; congruence.
Qed.

Lemma receive_from_twilio_closed t st :
  openai_closed st = true ->
  openai_closed (receive_from_twilio t st) = true /\
  openai_sent (receive_from_twilio t st) = openai_sent st.
Proof.
  intros Hclosed. destruct t as [m | | | m]; simpl.
  - destruct (receive_from_twilio_body_effect m st); simpl;
      try (split; [ exact Hclosed | reflexivity ]).
    congruence.
  - split; [ exact Hclosed | reflexivity ].
  - unfold receive_from_twilio_disconnect, print, modify, bind, gets, pass,
      ret. simpl. rewrite Hclosed. simpl.
    split; [ exact Hclosed | reflexivity ].
  - destruct (receive_from_twilio_on_effect false m st); simpl;
      try (split; [ exact Hclosed | reflexivity ]).
    congruence.
Qed.

Lemma step_closed fmt st i :
  openai_closed st = true ->
  openai_closed (step fmt st i) = true /\
  openai_sent (step fmt st i) = openai_sent st.
Proof.
  intros Hclosed. unfold step.
  destruct (inbound st); destruct i as [t | o]; try destruct (outbound st);
    try (split; [ exact Hclosed | reflexivity ]);
    first [ apply receive_from_twilio_closed; exact Hclosed
          | split;
            [ apply send_to_twilio_closed; exact Hclosed
            | apply send_to_twilio_frame ] ].
Qed.

(** X3: the AI connection is never reopened and, once it is closed,
    nothing more is sent to it, whatever the two connections deliver. *)
Theorem nothing_sent_after_ai_closed fmt schedule st :
  openai_closed st = true ->
  openai_closed (run fmt schedule st) = true /\
  openai_sent (run fmt schedule st) = openai_sent st.
Proof.
  revert st. induction schedule as [ | i s IH]; intros st Hclosed.
  - split; [ exact Hclosed | reflexivity ].
  - rewrite run_cons. destruct (step_closed fmt st i Hclosed) as [H1 H2].
    destruct (IH _ H1) as [G1 G2]. split; congruence.
Qed.

Lemma nothing_sent_after_ai_closed_witness :
  openai_sent
    (run py_format_atoms
       [ FromTwilio (Text (media_event "BBB="));
         FromTwilio (Text (start_event "CA1"));
         FromTwilio (Text (media_event "CCC=")) ]
       (run py_format_atoms
          [ FromTwilio (Text (media_event "AAA=")); FromOpenAI Closed ]
          connected))
  = [ session_update; audio_append (JStr "AAA=") ].
Proof.
  apply (nothing_sent_after_ai_closed py_format_atoms
           [ FromTwilio (Text (media_event "BBB="));
             FromTwilio (Text (start_event "CA1"));
             FromTwilio (Text (media_event "CCC=")) ]
           (run py_format_atoms
              [ FromTwilio (Text (media_event "AAA=")); FromOpenAI Closed ]
              connected)).
  reflexivity.
Defined.

(** ** How a call ends *)

(** In a call, [send_to_twilio] has not raised, and it has returned if
    the AI connection is closed. *)
Definition outbound_settled (st : call_state) : Prop :=
  (outbound st = Running \/ outbound st = Returned) /\
  (openai_closed st = true -> outbound st = Returned).

Lemma receive_from_twilio_settled t st :
  outbound_settled st -> outbound_settled (receive_from_twilio t st).
Proof.
  intros [H1 H2]. destruct t as [m | | | m]; simpl.
  - destruct (receive_from_twilio_body_effect m st); split; simpl; auto.
  - split; simpl; auto.
  - unfold receive_from_twilio_disconnect, print, modify, bind, gets, pass,
      ret. simpl.
    destruct (openai_closed st) eqn:Hc; simpl.
    + split; simpl; auto.
    + destruct (outbound st) eqn:Ho; split; simpl; rewrite ?Ho; auto;
        destruct H1; congruence.
  - destruct (receive_from_twilio_on_effect false m st); split; simpl; auto.
Qed.

Lemma send_to_twilio_settled fmt o st :
  outbound st = Running ->
  outbound_settled st -> outbound_settled (send_to_twilio fmt o st).
Proof.
  intros Hrun [H1 H2]. destruct o as [m | ]; simpl;
    [ | split; simpl; auto ].
  pose proof (send_to_twilio_body_frame fmt m st) as F.
  destruct (send_to_twilio_body fmt m st) as [[[] | e] st1];
    simpl in F; destruct F as (_ & Fc & _ & _ & Fo & _); split; simpl;
    rewrite ?Fo, ?Fc; auto.
Qed.

Lemma step_settled fmt st i :
  outbound_settled st -> outbound_settled (step fmt st i).
Proof.
  intros H. unfold step. destruct (inbound st); try exact H.
  - destruct i as [t | o];
      [ apply receive_from_twilio_settled; exact H | ].
    destruct (outbound st) eqn:Ho; try exact H.
    apply send_to_twilio_settled; assumption.
  - destruct i as [t | o]; try exact H.
    destruct (outbound st) eqn:Ho; try exact H.
    apply send_to_twilio_settled; assumption.
Qed.

Lemma run_settled fmt schedule st :
  outbound_settled st -> outbound_settled (run fmt schedule st).
Proof.
  revert st. induction schedule as [ | i s IH]; intros st H; [ exact H | ].
  rewrite run_cons. apply IH, step_settled, H.
Qed.

Lemma connected_settled : outbound_settled connected.
Proof. split; [ left; reflexivity | discriminate ]. Qed.

(** X4: no exception leaves [send_to_twilio]: whatever the connections
    deliver, that coroutine is running or has returned, [gather] never
    gets an exception from it; and it has returned whenever the AI
    connection is closed. *)
Theorem send_to_twilio_never_raises fmt fs schedule :
  let st := handle_media_stream fmt fs schedule in
  (outbound st = Running \/ outbound st = Returned) /\
  (openai_closed st = true -> outbound st = Returned).
Proof.
  pose proof (run_settled fmt schedule connected connected_settled) as H.
  destruct (handle_media_stream_frame fmt fs schedule)
    as (_ & _ & _ & Hc & _ & _ & Ho & _).
  cbv zeta. rewrite Hc, Ho. exact H.
Qed.

(** What [handle_media_stream] stores once both coroutines have
    returned, when [open] takes the name. *)
Lemma stored_when_returned fmt fs schedule :
  let st := run fmt schedule connected in
  inbound st = Returned ->
  outbound st = Returned ->
  fs (filename_of (client_name st)) = Ok tt ->
  files (handle_media_stream fmt fs schedule)
  = [(filename_of (client_name st), conversation_log st)].
Proof.
  intros st Hin Hout Hfs. unfold handle_media_stream. fold st.
  rewrite Hin, Hout.
  rewrite (store_conversation_ok fs (client_name st) (conversation_log st)
             st Hfs).
  simpl. unfold st at 1. rewrite run_files. reflexivity.
Qed.




(** X6: when the iteration over the telephony connection just ends (no
    [WebSocketDisconnect] reaches [receive_from_twilio]), the handler that
    closes the AI connection does not run: the AI connection stays open,
    [send_to_twilio] keeps running and nothing is stored yet. *)
Theorem silent_end_leaves_ai_open fmt fs schedule :
  let st := run fmt schedule connected in
  inbound st = Running ->
  outbound st = Running ->
  let final := handle_media_stream fmt fs (schedule ++ [FromTwilio End_]) in
  inbound final = Returned /\
  outbound final = Running /\
  openai_closed final = false /\
  files final = [].
Proof.
  intros st Hin Hout final.
  destruct (run_settled fmt schedule connected connected_settled)
    as [_ Hclosed]. fold st in Hclosed.
  assert (Hc : openai_closed st = false).
  { destruct (openai_closed st); [ | reflexivity ].
    rewrite (Hclosed eq_refl) in Hout. discriminate Hout. }
  assert (Hf : files st = [])
    by (unfold st; rewrite run_files; reflexivity).
  unfold final, handle_media_stream. rewrite run_app. fold st.
  change (run fmt [FromTwilio End_] st) with (step fmt st (FromTwilio End_)).
  unfold step. rewrite Hin. simpl. rewrite Hout. simpl.
  repeat split; assumption.
Qed.

Lemma silent_end_leaves_ai_open_witness :
  let final :=
    handle_media_stream py_format_atoms fs_flat
      ([ FromTwilio (Text (start_event "CA1")) ] ++ [ FromTwilio End_ ]) in
  inbound final = Returned /\
  outbound final = Running /\
  openai_closed final = false /\
  files final = [].
Proof.
  apply (silent_end_leaves_ai_open py_format_atoms fs_flat
           [ FromTwilio (Text (start_event "CA1")) ]); reflexivity.
Defined.

(** ** AI events *)

Lemma step_typed fmt st response type :
  aborted st = false ->
  outbound st = Running ->
  subscript response "type" = Ok type ->
  step fmt st (FromOpenAI (Message (Json response)))
  = send_to_twilio fmt (Message (Json response)) st /\
  send_to_twilio_body fmt (Json response) st
  = record_content fmt response
      (snd (forward_audio response
              (snd (log_session_updated response
                      (snd (log_event response st)))))).
Proof.
  intros Hab Hout Hty. split.
  - rewrite (step_openai fmt st _ Hab), Hout. reflexivity.
  - apply (send_to_twilio_body_typed fmt response type st Hty).
Qed.

(** X7: an AI event that declares a type other than
    [response.audio.delta] and [response.content.done] (the type need not
    even be a string) only prints: a line if the type is one of
    [LOG_EVENT_TYPES], a line if it is [session.updated]; nothing is sent
    and no variable changes. *)
Theorem other_ai_event_only_printed fmt st response type :
  aborted st = false ->
  outbound st = Running ->
  subscript response "type" = Ok type ->
  py_eq type "response.audio.delta" = false ->
  py_eq type "response.content.done" = false ->
  step fmt st (FromOpenAI (Message (Json response)))
  = set_stdout
      (stdout st
       ++ (if py_in_list type LOG_EVENT_TYPES
           then [ReceivedEvent type response] else [])
       ++ (if py_eq type "session.updated"
           then [SessionUpdated response] else []))%list
      st.
Proof.
  intros Hab Hout Hty Haudio Hcontent.
  destruct (step_typed fmt st response type Hab Hout Hty) as [-> Hbody].
  cbn [send_to_twilio]. rewrite Hbody.
  rewrite (record_content_other fmt response type _ Hty Hcontent).
  unfold forward_audio, is_audio_delta, log_session_updated, log_event, print,
    modify, bind, eval, pass, ret.
  rewrite Hty, Haudio.
  destruct (py_in_list type LOG_EVENT_TYPES);
    destruct (py_eq type "session.updated"); simpl;
    rewrite ?app_nil_r; try rewrite <- app_assoc; try reflexivity;
    destruct st; reflexivity.
Qed.

Lemma other_ai_event_only_printed_witness :
  step py_format_atoms connected
    (FromOpenAI (Message (Json (JObj [("type", JStr "response.done")]))))
  = set_stdout
      (stdout connected
       ++ [ReceivedEvent (JStr "response.done")
             (JObj [("type", JStr "response.done")])])%list
      connected.
Proof.
  apply (other_ai_event_only_printed py_format_atoms connected
           (JObj [("type", JStr "response.done")]) (JStr "response.done"));
    reflexivity.
Defined.

Lemma content_done_pre response st :
  subscript response "type" = Ok (JStr "response.content.done") ->
  snd (forward_audio response
         (snd (log_session_updated response (snd (log_event response st)))))
  = set_stdout
      (stdout st ++ [ReceivedEvent (JStr "response.content.done") response])
      st.
Proof.
  intros H.
  unfold forward_audio, is_audio_delta, log_session_updated, log_event, print,
    modify, bind, eval, pass, ret.
  rewrite H. reflexivity.
Qed.

(** X8: a [response.content.done] event whose [content] is not a string
    (null, a number, a list, an object) still gets its line in the
    transcript, as the f-string renders the value; then [lower] fails on
    it with an [AttributeError], which is printed and ends the loop of
    [send_to_twilio].  The name is left as it was and the AI connection
    open. *)
Theorem non_text_content_ends_outbound fmt st response content :
  aborted st = false ->
  outbound st = Running ->
  subscript response "type" = Ok (JStr "response.content.done") ->
  subscript response "content" = Ok content ->
  str_lower content = Raise AttributeError ->
  let st' := step fmt st (FromOpenAI (Message (Json response))) in
  conversation_log st'
  = conversation_log st ++ "AI: " ++ fmt content ++ Str.newline /\
  client_name st' = client_name st /\
  outbound st' = Returned /\
  openai_closed st' = openai_closed st /\
  stdout st'
  = (stdout st
     ++ [ ReceivedEvent (JStr "response.content.done") response;
          AiSays content;
          ErrorInSendToTwilio AttributeError ])%list.
Proof.
  intros Hab Hout Hty Hcontent Hlower st'. unfold st'.
  destruct (step_typed fmt st response _ Hab Hout Hty) as [-> Hbody].
  cbn [send_to_twilio]. rewrite Hbody, (content_done_pre response st Hty).
  destruct (subscript_dict _ _ _ Hty) as [items ->].
  unfold record_content, print, modify, bind, eval, gets, pass, ret.
  rewrite Hty. simpl in Hcontent. simpl.
  destruct (dict_lookup items "content") as [v | ]; [ | discriminate ].
  inversion Hcontent; subst v. simpl. rewrite Hlower. simpl.
  destruct content; try discriminate Hlower;
    simpl; repeat split; repeat rewrite <- app_assoc; reflexivity.
Qed.

Lemma non_text_content_ends_outbound_witness :
  let st' :=
    step py_format_atoms connected
      (FromOpenAI (Message (Json (JObj [("type", JStr "response.content.done");
                                        ("content", JNull)])))) in
  conversation_log st' = "AI: None" ++ Str.newline /\
  client_name st' = Unknown_Client /\
  outbound st' = Returned.
Proof.
  pose proof (non_text_content_ends_outbound py_format_atoms connected
                (JObj [("type", JStr "response.content.done");
                       ("content", JNull)])
                JNull eq_refl eq_refl eq_refl eq_refl eq_refl) as H.
  cbv zeta in H. destruct H as (H1 & H2 & H3 & _).
  repeat split; assumption.
Defined.

(** X9: a [response.content.done] event without a [content] field counts
    as the empty text: the line [AI: ] enters the transcript, the name is
    left as it was and the loop goes on. *)
Theorem missing_content_is_empty_text fmt st response :
  aborted st = false ->
  outbound st = Running ->
  subscript response "type" = Ok (JStr "response.content.done") ->
  subscript response "content" = Raise (KeyError "content") ->
  let st' := step fmt st (FromOpenAI (Message (Json response))) in
  conversation_log st' = conversation_log st ++ "AI: " ++ Str.newline /\
  client_name st' = client_name st /\
  outbound st' = Running.
Proof.
  intros Hab Hout Hty Hcontent st'. unfold st'.
  destruct (step_typed fmt st response _ Hab Hout Hty) as [-> Hbody].
  cbn [send_to_twilio]. rewrite Hbody, (content_done_pre response st Hty).
  destruct (subscript_dict _ _ _ Hty) as [items ->].
  unfold record_content, print, modify, bind, eval, gets, pass, ret.
  rewrite Hty. simpl in Hcontent. simpl.
  destruct (dict_lookup items "content") as [v | ]; [ discriminate | ].
  simpl. repeat split. exact Hout.
Qed.

Lemma missing_content_is_empty_text_witness :
  let st' :=
    step py_format_atoms connected
      (FromOpenAI (Message (Json (JObj [("type", JStr "response.content.done")])))) in
  conversation_log st' = "AI: " ++ Str.newline /\
  client_name st' = Unknown_Client /\
  outbound st' = Running.
Proof.
  apply (missing_content_is_empty_text py_format_atoms connected
           (JObj [("type", JStr "response.content.done")])); reflexivity.
Defined.

(** ** Re-encoding the audio: [b64encode(b64decode(delta))] *)

(** The numbers below [n], to settle a property of bytes by evaluation. *)
Definition below (n : nat) : list N := map N.of_nat (seq 0 n).

Lemma below_spec n (P : N -> bool) :
  forallb P (below n) = true ->
  forall x, (x < N.of_nat n)%N -> P x = true.
Proof.
  intros H x Hx. rewrite forallb_forall in H. apply H.
  unfold below. rewrite <- (N2Nat.id x). apply in_map, in_seq. lia.
Qed.

Definition sextet_check (v : N) : bool :=
  match Base64.a2b (Base64.b2a v) with
  | Some w => (w =? v)%N
  | None => false
  end
  && negb (Ascii.eqb (Base64.b2a v) "=")
  && (Str.code (Base64.b2a v) <? 128)%N.

Lemma sextet_facts v :
  (v < 64)%N ->
  Base64.a2b (Base64.b2a v) = Some v /\
  Ascii.eqb (Base64.b2a v) "=" = false /\
  (Str.code (Base64.b2a v) <? 128)%N = true.
Proof.
  intros Hv.
  assert (H : sextet_check v = true)
    by (apply (below_spec 64); [ vm_compute; reflexivity | exact Hv ]).
  unfold sextet_check in H.
  apply andb_true_iff in H. destruct H as [H H3].
  apply andb_true_iff in H. destruct H as [H1 H2].
  destruct (Base64.a2b (Base64.b2a v)) as [w | ]; [ | discriminate H1 ].
  apply N.eqb_eq in H1. subst w.
  apply negb_true_iff in H2. auto.
Qed.

(** The four sextets [b64encode] makes of three bytes, and what
    [a2b_base64] makes of them again. *)
Definition pair_check (x y : N) : bool :=
  ((N.shiftr x 2 <? 64)
   && (N.shiftl (N.land x 3) 4 <? 64)
   && (N.lor (N.shiftl (N.land x 3) 4) (N.shiftr y 4) <? 64)
   && (N.shiftl (N.land x 15) 2 <? 64)
   && (N.lor (N.shiftl (N.land x 15) 2) (N.shiftr y 6) <? 64)
   && (N.land x 63 <? 64)
   && (N.lor (N.shiftl (N.shiftr x 2) 2)
         (N.shiftr (N.shiftl (N.land x 3) 4) 4) =? x)
   && (N.lor (N.shiftl (N.shiftr x 2) 2)
         (N.shiftr (N.lor (N.shiftl (N.land x 3) 4) (N.shiftr y 4)) 4) =? x)
   && (N.lor (N.shiftl
                (N.land (N.lor (N.shiftl (N.land x 3) 4) (N.shiftr y 4)) 15) 4)
         (N.shiftr (N.shiftl (N.land y 15) 2) 2) =? y)
   && (N.land (N.lor (N.shiftl (N.land x 3) 4) (N.shiftr y 4)) 15
       =? N.shiftr y 4)
   && (N.lor (N.shiftl (N.shiftr x 4) 4)
         (N.shiftr (N.lor (N.shiftl (N.land x 15) 2) (N.shiftr y 6)) 2) =? x)
   && (N.lor (N.shiftl
                (N.land (N.lor (N.shiftl (N.land x 15) 2) (N.shiftr y 6)) 3) 6)
         (N.land y 63) =? y))%N.

Lemma pair_check_all x y :
  (x < 256)%N -> (y < 256)%N -> pair_check x y = true.
Proof.
  intros Hx Hy.
  assert (H : forallb (fun a => forallb (pair_check a) (below 256)) (below 256)
              = true) by (vm_compute; reflexivity).
  apply (below_spec 256 (pair_check x)); [ | exact Hy ].
  apply (below_spec 256 (fun a => forallb (pair_check a) (below 256)));
    assumption.
Qed.

Lemma pair_facts x y :
  (x < 256)%N -> (y < 256)%N ->
  ((N.shiftr x 2 < 64)%N /\
   (N.shiftl (N.land x 3) 4 < 64)%N /\
   (N.lor (N.shiftl (N.land x 3) 4) (N.shiftr y 4) < 64)%N /\
   (N.shiftl (N.land x 15) 2 < 64)%N /\
   (N.lor (N.shiftl (N.land x 15) 2) (N.shiftr y 6) < 64)%N /\
   (N.land x 63 < 64)%N) /\
  (N.lor (N.shiftl (N.shiftr x 2) 2) (N.shiftr (N.shiftl (N.land x 3) 4) 4)
   = x /\
   N.lor (N.shiftl (N.shiftr x 2) 2)
     (N.shiftr (N.lor (N.shiftl (N.land x 3) 4) (N.shiftr y 4)) 4) = x /\
   N.lor
     (N.shiftl (N.land (N.lor (N.shiftl (N.land x 3) 4) (N.shiftr y 4)) 15) 4)
     (N.shiftr (N.shiftl (N.land y 15) 2) 2) = y /\
   N.land (N.lor (N.shiftl (N.land x 3) 4) (N.shiftr y 4)) 15 = N.shiftr y 4 /\
   N.lor (N.shiftl (N.shiftr x 4) 4)
     (N.shiftr (N.lor (N.shiftl (N.land x 15) 2) (N.shiftr y 6)) 2) = x /\
   N.lor
     (N.shiftl (N.land (N.lor (N.shiftl (N.land x 15) 2) (N.shiftr y 6)) 3) 6)
     (N.land y 63) = y).
Proof.
  intros Hx Hy. pose proof (pair_check_all x y Hx Hy) as H.
  unfold pair_check in H.
  repeat (apply andb_true_iff in H; destruct H as [H ?]).
  repeat match goal with
         | K : (_ <? _)%N = true |- _ => apply N.ltb_lt in K
         | K : (_ =? _)%N = true |- _ => apply N.eqb_eq in K
         end.
  repeat split; assumption.
Qed.

(** A sextet [v] that is read back. *)
Ltac read_sextet Hv :=
  let A := fresh "A" in
  let B := fresh "B" in
  destruct (sextet_facts _ Hv) as (A & B & _);
  rewrite B, A; clear A B; cbn [Base64.a2b_base64].

Lemma decode_three x y z rest out :
  (x < 256)%N -> (y < 256)%N -> (z < 256)%N ->
  Base64.a2b_base64 (Base64.b64encode (x :: y :: z :: rest)) 0 0 0 out
  = Base64.a2b_base64 (Base64.b64encode rest) 0 0 0 (out ++ [x; y; z]).
Proof.
  intros Hx Hy Hz.
  destruct (pair_facts x y Hx Hy)
    as ((X1 & _ & X3 & _ & _ & _) & (_ & E1 & _ & E2 & _ & _)).
  destruct (pair_facts y z Hy Hz)
    as ((_ & _ & _ & _ & Y5 & _) & (_ & _ & _ & _ & E3 & E4)).
  destruct (pair_facts z z Hz Hz) as ((_ & _ & _ & _ & _ & Y6) & _).
  cbn [Base64.b64encode Base64.a2b_base64].
  read_sextet X1. read_sextet X3. read_sextet Y5. read_sextet Y6.
  rewrite E1, E2, E3, E4.
  rewrite <- !app_assoc. reflexivity.
Qed.

Lemma decode_two x y out :
  (x < 256)%N -> (y < 256)%N ->
  Base64.a2b_base64 (Base64.b64encode [x; y]) 0 0 0 out
  = Ok (out ++ [x; y])%list.
Proof.
  intros Hx Hy.
  destruct (pair_facts x y Hx Hy)
    as ((X1 & _ & X3 & _ & _ & _) & (_ & E1 & E2 & _ & _ & _)).
  destruct (pair_facts y y Hy Hy) as ((_ & _ & _ & Y4 & _ & _) & _).
  cbn [Base64.b64encode Base64.a2b_base64].
  read_sextet X1. read_sextet X3. read_sextet Y4.
  rewrite E1, E2. cbn. rewrite <- !app_assoc. reflexivity.
Qed.

Lemma decode_one x out :
  (x < 256)%N ->
  Base64.a2b_base64 (Base64.b64encode [x]) 0 0 0 out = Ok (out ++ [x])%list.
Proof.
  intros Hx.
  destruct (pair_facts x x Hx Hx)
    as ((X1 & X2 & _ & _ & _ & _) & (E1 & _ & _ & _ & _ & _)).
  cbn [Base64.b64encode Base64.a2b_base64].
  read_sextet X1. read_sextet X2.
  rewrite E1. cbn. reflexivity.
Qed.

Definition is_byte (b : N) : Prop := (b < 256)%N.

(** Decoding what [b64encode] made gives the bytes back. *)
Lemma decode_encode n :
  forall bytes out,
    List.length bytes <= n ->
    Forall is_byte bytes ->
    Base64.a2b_base64 (Base64.b64encode bytes) 0 0 0 out
    = Ok (out ++ bytes)%list.
Proof.
  induction n as [ | n IH]; intros bytes out Hlen Hall.
  - destruct bytes; [ | simpl in Hlen; lia ].
    simpl. rewrite app_nil_r. reflexivity.
  - destruct bytes as [ | x [ | y [ | z rest]]].
    + simpl. rewrite app_nil_r. reflexivity.
    + inversion Hall; subst. apply decode_one. assumption.
    + inversion Hall as [ | ? ? Hx Hall']; subst.
      inversion Hall' as [ | ? ? Hy _]; subst.
      apply decode_two; assumption.
    + inversion Hall as [ | ? ? Hx Hall']; subst.
      inversion Hall' as [ | ? ? Hy Hall'']; subst.
      inversion Hall'' as [ | ? ? Hz Hrest]; subst.
      rewrite decode_three by assumption.
      rewrite IH; [ | simpl in Hlen; lia | exact Hrest ].
      rewrite <- app_assoc. reflexivity.
Qed.

Lemma encode_ascii n :
  forall bytes,
    List.length bytes <= n ->
    Forall is_byte bytes ->
    Base64.is_ascii (Base64.b64encode bytes) = true.
Proof.
  unfold Base64.is_ascii.
  induction n as [ | n IH]; intros bytes Hlen Hall.
  - destruct bytes; [ reflexivity | simpl in Hlen; lia ].
  - destruct bytes as [ | x [ | y [ | z rest]]].
    + reflexivity.
    + inversion Hall as [ | ? ? Hx _]; subst.
      destruct (pair_facts x x Hx Hx) as ((X1 & X2 & _) & _).
      destruct (sextet_facts _ X1) as (_ & _ & A1).
      destruct (sextet_facts _ X2) as (_ & _ & A2).
      cbn [Base64.b64encode list_ascii_of_string forallb].
      rewrite A1, A2. reflexivity.
    + inversion Hall as [ | ? ? Hx Hall']; subst.
      inversion Hall' as [ | ? ? Hy _]; subst.
      destruct (pair_facts x y Hx Hy) as ((X1 & _ & X3 & _) & _).
      destruct (pair_facts y y Hy Hy) as ((_ & _ & _ & Y4 & _) & _).
      destruct (sextet_facts _ X1) as (_ & _ & A1).
      destruct (sextet_facts _ X3) as (_ & _ & A2).
      destruct (sextet_facts _ Y4) as (_ & _ & A3).
      cbn [Base64.b64encode list_ascii_of_string forallb].
      rewrite A1, A2, A3. reflexivity.
    + inversion Hall as [ | ? ? Hx Hall']; subst.
      inversion Hall' as [ | ? ? Hy Hall'']; subst.
      inversion Hall'' as [ | ? ? Hz Hrest]; subst.
      destruct (pair_facts x y Hx Hy) as ((X1 & _ & X3 & _) & _).
      destruct (pair_facts y z Hy Hz) as ((_ & _ & _ & _ & Y5 & _) & _).
      destruct (pair_facts z z Hz Hz) as ((_ & _ & _ & _ & _ & Z6) & _).
      destruct (sextet_facts _ X1) as (_ & _ & A1).
      destruct (sextet_facts _ X3) as (_ & _ & A2).
      destruct (sextet_facts _ Y5) as (_ & _ & A3).
      destruct (sextet_facts _ Z6) as (_ & _ & A4).
      cbn [Base64.b64encode list_ascii_of_string forallb].
      rewrite A1, A2, A3, A4. cbn [andb].
      apply IH; [ simpl in Hlen; lia | exact Hrest ].
Qed.

(** The round trip: [b64decode(b64encode(bytes)) == bytes]. *)
Lemma b64decode_b64encode bytes :
  Forall is_byte bytes ->
  Base64.b64decode (JStr (Base64.b64encode bytes)) = Ok bytes.
Proof.
  intros Hall. unfold Base64.b64decode.
  rewrite (encode_ascii (List.length bytes) bytes (le_n _) Hall).
  apply (decode_encode (List.length bytes) bytes [] (le_n _) Hall).
Qed.

(** What [a2b_base64] keeps in [leftchar] at each position of a group. *)
Definition leftchar_fits (quad_pos : nat) (leftchar : N) : Prop :=
  match quad_pos with
  | 0%nat => True
  | 1%nat => (leftchar < 64)%N
  | 2%nat => (leftchar < 16)%N
  | _ => (leftchar < 4)%N
  end.

Lemma a2b_sextet c v : Base64.a2b c = Some v -> (v < 64)%N.
Proof.
  unfold Base64.a2b. cbv zeta.
  repeat match goal with
         | |- context [if ?b then _ else _] => destruct b eqn:?
         end; intros H; inversion H; subst;
    repeat match goal with
           | K : (_ && _)%bool = true |- _ =>
               apply andb_true_iff in K; destruct K
           | K : (_ <=? _)%N = true |- _ => apply N.leb_le in K
           end; lia.
Qed.

Definition merge_check (l v : N) : bool :=
  ((N.lor (N.shiftl l 2) (N.shiftr v 4) <? 256)
   && (N.land v 15 <? 16)
   && (N.land v 3 <? 4)
   && ((16 <=? l) || (N.lor (N.shiftl l 4) (N.shiftr v 2) <? 256))
   && ((4 <=? l) || (N.lor (N.shiftl l 6) v <? 256)))%N.

Lemma merge_facts l v :
  (l < 64)%N -> (v < 64)%N ->
  is_byte (N.lor (N.shiftl l 2) (N.shiftr v 4)) /\
  (N.land v 15 < 16)%N /\
  (N.land v 3 < 4)%N /\
  ((l < 16)%N -> is_byte (N.lor (N.shiftl l 4) (N.shiftr v 2))) /\
  ((l < 4)%N -> is_byte (N.lor (N.shiftl l 6) v)).
Proof.
  intros Hl Hv.
  assert (H : forallb (fun a => forallb (merge_check a) (below 64)) (below 64)
              = true) by (vm_compute; reflexivity).
  pose proof (below_spec 64 _ H l Hl) as H1.
  pose proof (below_spec 64 _ H1 v Hv) as H2. unfold merge_check in H2.
  repeat (apply andb_true_iff in H2; destruct H2 as [H2 ?]).
  repeat match goal with
         | K : (_ <? _)%N = true |- _ => apply N.ltb_lt in K
         | K : (_ || _)%bool = true |- _ => apply orb_true_iff in K
         end.
  unfold is_byte. repeat split; try assumption; intros Hl';
    repeat match goal with
           | K : _ \/ _ |- _ => destruct K
           end;
    repeat match goal with
           | K : (_ <? _)%N = true |- _ => apply N.ltb_lt in K
           | K : (_ <=? _)%N = true |- _ => apply N.leb_le in K
           end; lia.
Qed.

(** [a2b_base64] produces bytes. *)
Lemma a2b_base64_bytes s :
  forall quad_pos leftchar pads out res,
    Base64.a2b_base64 s quad_pos leftchar pads out = Ok res ->
    leftchar_fits quad_pos leftchar ->
    Forall is_byte out ->
    Forall is_byte res.
Proof.
  induction s as [ | c s IH]; intros q l p out res H Hl Hout.
  - simpl in H. destruct q; [ | discriminate H ]. inversion H; subst.
    exact Hout.
  - cbn [Base64.a2b_base64] in H.
    destruct (Ascii.eqb c "=").
    + destruct (2 <=? q)%nat.
      * destruct (4 <=? q + S p)%nat; [ inversion H; subst; exact Hout | ].
        eapply IH; eauto.
      * eapply IH; eauto.
    + destruct (Base64.a2b c) as [v | ] eqn:Hc; [ | eapply IH; eauto ].
      pose proof (a2b_sextet c v Hc) as Hv.
      destruct q as [ | [ | [ | q]]].
      * eapply IH; [ exact H | exact Hv | exact Hout ].
      * destruct (merge_facts l v Hl Hv) as (B1 & B2 & _).
        eapply IH; [ exact H | exact B2 | ].
        apply Forall_app. split; [ exact Hout | repeat constructor; exact B1 ].
      * assert (Hl64 : (l < 64)%N) by (simpl in Hl; lia).
        destruct (merge_facts l v Hl64 Hv) as (_ & _ & B3 & B4 & _).
        eapply IH; [ exact H | exact B3 | ].
        apply Forall_app. split;
          [ exact Hout | repeat constructor; apply B4; exact Hl ].
      * assert (Hl64 : (l < 64)%N) by (simpl in Hl; lia).
        destruct (merge_facts l v Hl64 Hv) as (_ & _ & _ & _ & B5).
        eapply IH; [ exact H | exact I | ].
        apply Forall_app. split;
          [ exact Hout | repeat constructor; apply B5; exact Hl ].
Qed.

Lemma b64decode_bytes delta decoded :
  Base64.b64decode delta = Ok decoded -> Forall is_byte decoded.
Proof.
  unfold Base64.b64decode. destruct delta; try discriminate.
  destruct (Base64.is_ascii s); [ | discriminate ].
  intros H. apply (a2b_base64_bytes s 0 0 0 [] decoded H I). constructor.
Qed.

(** ** Synthesized audio to the telephony connection *)

Lemma step_audio_delta fmt st response :
  aborted st = false ->
  outbound st = Running ->
  subscript response "type" = Ok (JStr "response.audio.delta") ->
  step fmt st (FromOpenAI (Message (Json response)))
  = snd (forward_audio response st) /\
  fst (forward_audio response st) = Ok tt.
Proof.
  intros Hab Hout Hty.
  pose proof (forward_audio_ok response _ st Hty) as Hok.
  split; [ | exact Hok ].
  rewrite (step_openai fmt st _ Hab), Hout. cbn [send_to_twilio].
  rewrite (send_to_twilio_body_typed fmt response _ st Hty).
  rewrite (record_content_other fmt response _ _ Hty) by reflexivity.
  rewrite (audio_delta_pre response st Hty). reflexivity.
Qed.

Lemma forward_audio_sends response delta decoded st :
  subscript response "type" = Ok (JStr "response.audio.delta") ->
  subscript response "delta" = Ok delta ->
  py_truthy delta = true ->
  Base64.b64decode delta = Ok decoded ->
  twilio_connected st = true ->
  forward_audio response st
  = (Ok tt,
     set_twilio_sent
       (twilio_sent st
        ++ [audio_delta (stream_sid st) (Base64.b64encode decoded)]) st).
Proof.
  intros Hty Hdelta Htruthy Hdec Hconn.
  destruct (subscript_dict _ _ _ Hty) as [items ->].
  unfold forward_audio, is_audio_delta, try_except, bind, eval, gets, ret.
  rewrite Hty. simpl. simpl in Hdelta.
  destruct (dict_lookup items "delta") as [d | ]; [ | discriminate Hdelta ].
  inversion Hdelta; subst d. rewrite Htruthy, Hdec.
  unfold twilio_send_json. rewrite Hconn. reflexivity.
Qed.

Lemma b64encode_truthy bytes :
  bytes <> [] -> py_truthy (JStr (Base64.b64encode bytes)) = true.
Proof.
  destruct bytes as [ | x [ | y [ | z rest]]]; try reflexivity.
  intros H. contradiction H. reflexivity.
Qed.

(** X10: an audio delta that is the base64 encoding of some bytes is
    passed on as it is: the [media] frame sent to the telephony connection
    carries the very same text as payload, and the current stream
    identifier; nothing else changes. *)
Theorem canonical_delta_forwarded_unchanged fmt st response bytes :
  aborted st = false ->
  outbound st = Running ->
  twilio_connected st = true ->
  subscript response "type" = Ok (JStr "response.audio.delta") ->
  subscript response "delta" = Ok (JStr (Base64.b64encode bytes)) ->
  bytes <> [] ->
  Forall is_byte bytes ->
  step fmt st (FromOpenAI (Message (Json response)))
  = set_twilio_sent
      (twilio_sent st
       ++ [audio_delta (stream_sid st) (Base64.b64encode bytes)]) st.
Proof.
  intros Hab Hout Hconn Hty Hdelta Hne Hall.
  destruct (step_audio_delta fmt st response Hab Hout Hty) as [-> _].
  rewrite (forward_audio_sends response _ bytes st Hty Hdelta
             (b64encode_truthy bytes Hne) (b64decode_b64encode bytes Hall)
             Hconn).
  reflexivity.
Qed.

Lemma canonical_delta_forwarded_unchanged_witness :
  step py_format_atoms connected
    (FromOpenAI (Message (audio_delta_event "SGVsbG8=")))
  = set_twilio_sent [audio_delta JNull "SGVsbG8="] connected.
Proof.
  refine (canonical_delta_forwarded_unchanged py_format_atoms connected
            (JObj [("type", JStr "response.audio.delta");
                   ("delta", JStr "SGVsbG8=")])
            [72; 101; 108; 108; 111]%N
            eq_refl eq_refl eq_refl eq_refl eq_refl _ _).
  - discriminate.
  - repeat constructor.
Defined.

(** X11: an audio delta that [b64decode] rejects (wrong padding, a text
    that is not ASCII, a value that is not a string) is printed as an
    error and skipped: nothing is sent, no variable changes and the loop
    goes on. *)
Theorem undecodable_delta_printed fmt st response delta e :
  aborted st = false ->
  outbound st = Running ->
  subscript response "type" = Ok (JStr "response.audio.delta") ->
  subscript response "delta" = Ok delta ->
  py_truthy delta = true ->
  Base64.b64decode delta = Raise e ->
  step fmt st (FromOpenAI (Message (Json response)))
  = set_stdout (stdout st ++ [ErrorProcessingAudio e]) st.
Proof.
  intros Hab Hout Hty Hdelta Htruthy Hdec.
  destruct (step_audio_delta fmt st response Hab Hout Hty) as [-> _].
  destruct (subscript_dict _ _ _ Hty) as [items ->].
  unfold forward_audio, is_audio_delta, try_except, bind, eval, gets, ret.
  rewrite Hty. simpl. simpl in Hdelta.
  destruct (dict_lookup items "delta") as [d | ]; [ | discriminate Hdelta ].
  inversion Hdelta; subst d. rewrite Htruthy, Hdec. reflexivity.
Qed.

Lemma undecodable_delta_printed_witness :
  step py_format_atoms connected
    (FromOpenAI (Message (Json (JObj [("type", JStr "response.audio.delta");
                                      ("delta", JInt 7)]))))
  = set_stdout (stdout connected ++ [ErrorProcessingAudio TypeError]) connected.
Proof.
  apply (undecodable_delta_printed py_format_atoms connected
           (JObj [("type", JStr "response.audio.delta"); ("delta", JInt 7)])
           (JInt 7) TypeError); reflexivity.
Defined.

(** X12: an audio delta event whose [delta] is missing, null, empty or
    otherwise false is skipped without a trace: nothing is sent, nothing
    is printed, no variable changes. *)
Theorem empty_delta_skipped fmt st response delta :
  aborted st = false ->
  outbound st = Running ->
  subscript response "type" = Ok (JStr "response.audio.delta") ->
  py_get response "delta" JNull = Ok delta ->
  py_truthy delta = false ->
  step fmt st (FromOpenAI (Message (Json response))) = st.
Proof.
  intros Hab Hout Hty Hdelta Hfalsy.
  destruct (step_audio_delta fmt st response Hab Hout Hty) as [-> _].
  unfold forward_audio, is_audio_delta, bind, eval, ret, pass.
  rewrite Hty. simpl. rewrite Hdelta, Hfalsy. reflexivity.
Qed.

Lemma empty_delta_skipped_witness :
  step py_format_atoms connected
    (FromOpenAI (Message (Json (JObj [("type", JStr "response.audio.delta")]))))
  = connected.
Proof.
  apply (empty_delta_skipped py_format_atoms connected
           (JObj [("type", JStr "response.audio.delta")]) JNull);
    reflexivity.
Defined.

(** X13: the frame of an audio delta carries the stream identifier of the
    latest [start] event: a [start] event followed by a decodable audio
    delta sends one frame stamped with that event's [streamSid], while
    both coroutines run and the telephony connection is there. *)
Theorem delta_stamped_with_latest_start fmt st start sid response delta decoded :
  inbound st = Running ->
  outbound st = Running ->
  twilio_connected st = true ->
  start_sid start = Some sid ->
  subscript response "type" = Ok (JStr "response.audio.delta") ->
  subscript response "delta" = Ok delta ->
  py_truthy delta = true ->
  Base64.b64decode delta = Ok decoded ->
  twilio_sent
    (run fmt [ FromTwilio (Text (Json start));
               FromOpenAI (Message (Json response)) ] st)
  = (twilio_sent st ++ [audio_delta sid (Base64.b64encode decoded)])%list.
Proof.
  intros Hin Hout Hconn Hstart Hty Hdelta Htruthy Hdec.
  rewrite run_cons.
  assert (Hstep : step fmt st (FromTwilio (Text (Json start)))
                  = set_stdout (stdout st ++ [IncomingStreamStarted sid])
                      (set_stream_sid sid st)).
  { unfold step. rewrite Hin. simpl.
    rewrite (receive_start start sid st Hstart). reflexivity. }
  rewrite Hstep. set (st1 := set_stdout _ _).
  change (run fmt [FromOpenAI (Message (Json response))] st1)
    with (step fmt st1 (FromOpenAI (Message (Json response)))).
  assert (Hab1 : aborted st1 = false)
    by (unfold aborted, st1; simpl; rewrite Hin; reflexivity).
  destruct (step_audio_delta fmt st1 response Hab1 Hout Hty) as [-> _].
  rewrite (forward_audio_sends response delta decoded st1 Hty Hdelta Htruthy
             Hdec Hconn).
  reflexivity.
Qed.

Lemma delta_stamped_with_latest_start_witness :
  twilio_sent
    (run py_format_atoms
       [ FromTwilio (Text (start_event "CA2"));
         FromOpenAI (Message (audio_delta_event "SGVsbG8=")) ]
       (run py_format_atoms [ FromTwilio (Text (start_event "CA1")) ]
          connected))
  = [ audio_delta (JStr "CA2") "SGVsbG8=" ].
Proof.
  apply (delta_stamped_with_latest_start py_format_atoms
           (run py_format_atoms [ FromTwilio (Text (start_event "CA1")) ]
              connected)
           (JObj [("event", JStr "start");
                  ("start", JObj [("streamSid", JStr "CA2")])])
           (JStr "CA2")
           (JObj [("type", JStr "response.audio.delta");
                  ("delta", JStr "SGVsbG8=")])
           (JStr "SGVsbG8=") [72; 101; 108; 108; 111]%N);
    reflexivity.
Defined.

(** A [media] frame whose payload is the base64 encoding of some bytes. *)
Definition canonical_frame (msg : json) : Prop :=
  exists sid bytes,
    msg = audio_delta sid (Base64.b64encode bytes) /\
    Base64.b64decode (JStr (Base64.b64encode bytes)) = Ok bytes.

Definition same_twilio_sent (st st' : call_state) : Prop :=
  twilio_sent st' = twilio_sent st.

Lemma same_twilio_sent_refl st : same_twilio_sent st st.
Proof. reflexivity. Qed.

Lemma same_twilio_sent_trans a b c :
  same_twilio_sent a b -> same_twilio_sent b c -> same_twilio_sent a c.
Proof. unfold same_twilio_sent. congruence. Qed.

Lemma log_event_twilio_sent response :
  keeps same_twilio_sent (log_event response).
Proof.
  unfold log_event, print, pass.
  keeps_tac same_twilio_sent_refl same_twilio_sent_trans; reflexivity.
Qed.

Lemma log_session_updated_twilio_sent response :
  keeps same_twilio_sent (log_session_updated response).
Proof.
  unfold log_session_updated, print, pass.
  keeps_tac same_twilio_sent_refl same_twilio_sent_trans; reflexivity.
Qed.

Lemma record_content_twilio_sent fmt response :
  keeps same_twilio_sent (record_content fmt response).
Proof.
  unfold record_content, print, pass.
  keeps_tac same_twilio_sent_refl same_twilio_sent_trans; reflexivity.
Qed.

Lemma forward_audio_sent response st :
  twilio_sent (snd (forward_audio response st)) = twilio_sent st \/
  exists bytes,
    Forall is_byte bytes /\
    twilio_sent (snd (forward_audio response st))
    = (twilio_sent st
       ++ [audio_delta (stream_sid st) (Base64.b64encode bytes)])%list.
Proof.
  unfold forward_audio, is_audio_delta, try_except, bind, eval, gets, print,
    modify, pass, ret.
  destruct (subscript response "type") as [type | e]; [ | left; reflexivity ].
  destruct (py_eq type "response.audio.delta"); [ | left; reflexivity ].
  destruct (py_get response "delta" JNull) as [d | e]; [ | left; reflexivity ].
  simpl. destruct (py_truthy d); [ | left; reflexivity ].
  destruct (subscript response "delta") as [delta | e];
    [ | left; reflexivity ].
  destruct (Base64.b64decode delta) as [decoded | e] eqn:Hdec;
    [ | left; reflexivity ].
  unfold twilio_send_json. destruct (twilio_connected st);
    [ | left; reflexivity ].
  right. exists decoded. split; [ | reflexivity ].
  apply (b64decode_bytes delta decoded Hdec).
Qed.

Lemma step_twilio_sent fmt st i :
  twilio_sent (step fmt st i) = twilio_sent st \/
  exists sid bytes,
    Forall is_byte bytes /\
    twilio_sent (step fmt st i)
    = (twilio_sent st ++ [audio_delta sid (Base64.b64encode bytes)])%list.
Proof.
  assert (Hturn : forall o,
             twilio_sent (send_to_twilio fmt o st) = twilio_sent st \/
             exists sid bytes,
               Forall is_byte bytes /\
               twilio_sent (send_to_twilio fmt o st)
               = (twilio_sent st
                  ++ [audio_delta sid (Base64.b64encode bytes)])%list).
  { intros [m | ]; [ | left; reflexivity ]. cbn [send_to_twilio].
    destruct (wire_typed m) as [(response & type & -> & Hty) | Hun].
    - rewrite (send_to_twilio_body_typed fmt response type st Hty).
      pose proof (log_event_twilio_sent response st) as H1.
      set (st1 := snd (log_event response st)) in *.
      pose proof (log_session_updated_twilio_sent response st1) as H2.
      pose proof (log_session_updated_frame response st1) as (F2 & _).
      pose proof (log_event_frame response st) as (F1 & _).
      fold st1 in F1.
      set (st2 := snd (log_session_updated response st1)) in *.
      pose proof (forward_audio_sent response st2) as H3.
      set (st3 := snd (forward_audio response st2)) in *.
      pose proof (record_content_twilio_sent fmt response st3) as H4.
      unfold same_twilio_sent in *.
      assert (H : twilio_sent (snd (record_content fmt response st3))
                  = twilio_sent st \/
                  exists sid bytes,
                    Forall is_byte bytes /\
                    twilio_sent (snd (record_content fmt response st3))
                    = (twilio_sent st
                       ++ [audio_delta sid (Base64.b64encode bytes)])%list).
      { rewrite H4. destruct H3 as [H3 | (bytes & Hb & H3)].
        - left. congruence.
        - right. exists (stream_sid st2), bytes. split; [ exact Hb | ].
          rewrite H3. congruence. }
      destruct (record_content fmt response st3) as [[[] | e] st4];
        exact H.
    - destruct (send_to_twilio_body_untyped fmt m st Hun) as [e ->].
      left. reflexivity. }
  unfold step.
  destruct (inbound st); destruct i as [t | o]; try destruct (outbound st);
    try (left; reflexivity);
    first [ left; apply receive_from_twilio_frame | apply Hturn ].
Qed.

(** X14: whatever the two connections deliver, everything the call sends
    to the telephony connection is a [media] frame whose payload is the
    base64 encoding of some bytes (it decodes to them and they encode to
    it): a delta that is not in that form is sent re-encoded, never as it
    came. *)
Theorem only_canonical_frames_sent fmt fs schedule :
  Forall canonical_frame (twilio_sent (handle_media_stream fmt fs schedule)).
Proof.
  assert (Hrun : forall s st,
             Forall canonical_frame (twilio_sent st) ->
             Forall canonical_frame (twilio_sent (run fmt s st))).
  { induction s as [ | i s IH]; intros st H; [ exact H | ].
    rewrite run_cons. apply IH.
    destruct (step_twilio_sent fmt st i) as [-> | (sid & bytes & Hb & ->)];
      [ exact H | ].
    apply Forall_app. split; [ exact H | ].
    constructor; [ | constructor ].
    exists sid, bytes. split; [ reflexivity | ].
    apply b64decode_b64encode, Hb. }
  pose proof (Hrun schedule connected (Forall_nil _)) as H.
  destruct (handle_media_stream_frame fmt fs schedule)
    as (_ & _ & _ & _ & _ & _ & _ & _ & ->).
  exact H.
Qed.

(** ** The file of a conversation *)

Lemma replace_idempotent s :
  Str.replace " " "_" (Str.replace " " "_" s) = Str.replace " " "_" s.
Proof.
  induction s as [ | c s IH]; [ reflexivity | ].
  cbn [Str.replace]. rewrite IH. f_equal.
  destruct (Ascii.eqb c " ") eqn:E; [ reflexivity | rewrite E; reflexivity ].
Qed.

(** ["_"] stands where [" "] stood, so the replaced text has no space. *)
Lemma replace_no_space s tail :
  Str.contains " " tail = false ->
  Str.contains " " (Str.replace " " "_" s ++ tail) = false.
Proof.
  intros Htail. induction s as [ | c s IH]; [ exact Htail | ].
  cbn [Str.replace append Str.contains prefix].
  rewrite IH.
  destruct (Ascii.eqb_spec c " ") as [-> | Hc].
  - reflexivity.
  - destruct (ascii_dec " " c) as [E | _]; [ | reflexivity ].
    contradiction Hc. symmetry. exact E.
Qed.

(** X15: the name of the file never contains a space, and a client name
    with spaces gets the same file as that name with underscores in their
    place: the later of two such conversations overwrites the other. *)
Theorem filename_ignores_spaces name :
  Str.contains " " (filename_of name) = false /\
  filename_of (Str.replace " " "_" name) = filename_of name.
Proof.
  split.
  - rewrite filename_of_replace. apply replace_no_space. reflexivity.
  - rewrite !filename_of_replace, replace_idempotent. reflexivity.
Qed.

(** X16: a call stores at most one file, and none unless both coroutines
    have returned: in particular nothing is stored while a connection is
    still being read, nor after [receive_from_twilio] has raised. *)
Theorem stored_only_when_both_returned fmt fs schedule :
  let final := handle_media_stream fmt fs schedule in
  files final = [] \/
  (inbound final = Returned /\
   outbound final = Returned /\
   files final = [(filename_of (client_name final), conversation_log final)]).
Proof.
  intros final.
  assert (Hf : files (run fmt schedule connected) = [])
    by (rewrite run_files; reflexivity).
  unfold final, handle_media_stream.
  destruct (inbound (run fmt schedule connected)) eqn:Hin;
    try (left; exact Hf).
  destruct (outbound (run fmt schedule connected)) eqn:Hout;
    try (left; exact Hf).
  destruct (store_conversation_cases fs
              (client_name (run fmt schedule connected))
              (conversation_log (run fmt schedule connected))
              (run fmt schedule connected)) as [-> | [e ->]];
    [ | left; exact Hf ].
  right. simpl. rewrite Hin, Hout, Hf. repeat split.
Qed.

(** ** Where the client name comes from *)

Lemma record_content_name_from fmt response st :
  let st' := snd (record_content fmt response st) in
  client_name st' = client_name st \/
  exists text,
    produced_text (Json response) = Some text /\
    name_from text (client_name st').
Proof.
  unfold record_content, produced_text, bind, eval, gets, print, modify,
    pass, ret.
  destruct (subscript response "type") as [type | e]; [ | left; reflexivity ].
  destruct (py_eq type "response.content.done"); [ | left; reflexivity ].
  destruct (py_get response "content" (JStr "")) as [ai_response | e];
    [ | left; reflexivity ].
  simpl. destruct ai_response as [ | | | | text | | ]; try (left; reflexivity).
  simpl.
  destruct (Str.contains "name" (Str.lower text)
            && String.eqb (client_name st) Unknown_Client) eqn:E;
    [ | left; reflexivity ].
  apply andb_prop in E as [Hm _].
  destruct (rest_after_last_name_total text) as [rest Hrest].
  simpl. rewrite (split_rest text rest Hrest). simpl.
  right. exists text. split; [ reflexivity | ].
  split; [ apply mentions_name_lower, Hm | ].
  exists rest. split; [ exact Hrest | apply strip_strips_to ].
Qed.

Lemma step_name_from fmt st i :
  client_name (step fmt st i) = client_name st \/
  exists text,
    In text (produced_texts [i]) /\
    name_from text (client_name (step fmt st i)).
Proof.
  assert (Hturn : forall o,
             client_name (send_to_twilio fmt o st) = client_name st \/
             exists text,
               In text (produced_texts [FromOpenAI o]) /\
               name_from text (client_name (send_to_twilio fmt o st))).
  { intros [m | ]; [ | left; reflexivity ]. cbn [send_to_twilio].
    destruct (wire_typed m) as [(response & type & -> & Hty) | Hun].
    - rewrite (send_to_twilio_body_typed fmt response type st Hty).
      destruct (relay_frame_pre response st) as (_ & Hn & _).
      set (st3 := snd (forward_audio response _)) in *.
      pose proof (record_content_name_from fmt response st3) as H.
      cbv zeta in H. rewrite Hn in H.
      assert (Hp : forall text,
                 produced_text (Json response) = Some text ->
                 In text
                   (produced_texts [FromOpenAI (Message (Json response))]))
        by (intros text Hp; cbn [produced_texts]; rewrite Hp; left;
            reflexivity).
      destruct (record_content fmt response st3) as [[[] | e] st4];
        cbn [snd] in H;
        (destruct H as [H | (text & Htext & H)];
         [ left; exact H
         | right; exists text; split; [ apply Hp, Htext | exact H ] ]).
    - destruct (send_to_twilio_body_untyped fmt m st Hun) as [e ->].
      left. reflexivity. }
  unfold step.
  destruct (inbound st); destruct i as [t | o]; try destruct (outbound st);
    try (left; reflexivity);
    first [ apply Hturn
          | left; destruct (receive_from_twilio_frame t st) as (-> & _);
            reflexivity ].
Qed.

Lemma run_name_from fmt schedule st :
  client_name (run fmt schedule st) = client_name st \/
  exists text,
    In text (produced_texts schedule) /\
    name_from text (client_name (run fmt schedule st)).
Proof.
  induction schedule as [ | i s IH] using rev_ind; [ left; reflexivity | ].
  rewrite run_app, produced_texts_app.
  change (run fmt [i] (run fmt s st)) with (step fmt (run fmt s st) i).
  destruct (step_name_from fmt (run fmt s st) i) as [-> | (text & Hi & H)].
  - destruct IH as [IH | (text & Hs & H)]; [ left; exact IH | ].
    right. exists text. split; [ apply in_or_app; left; exact Hs | exact H ].
  - right. exists text. split; [ apply in_or_app; right; exact Hi | exact H ].
Qed.

(** X17: at every moment of every call, and in what is stored, the client
    name is ["Unknown Client"] or comes from a [response.content.done]
    text of the call that contains ["name"] in some letter case: it is
    the portion of that text after its last lower-case ["name"] (the
    whole text when it has none), stripped of surrounding whitespace.  So
    it neither starts nor ends with whitespace and holds no lower-case
    ["name"]. *)
Theorem client_name_is_shaped fmt fs schedule :
  let name := client_name (run fmt schedule connected) in
  client_name (handle_media_stream fmt fs schedule) = name /\
  (name = Unknown_Client \/
   exists text,
     In text (produced_texts schedule) /\ name_from text name) /\
  trimmed name = true /\
  ~ occurs "name" name.
Proof.
  intros name.
  assert (H : name = Unknown_Client \/
              exists text,
                In text (produced_texts schedule) /\ name_from text name)
    by apply (run_name_from fmt schedule connected).
  split; [ apply (handle_media_stream_frame fmt fs schedule) | ].
  split; [ exact H | ].
  destruct H as [-> | (text & _ & _ & rest & Hrest & l & r & Hr & _ & _ & Ht)].
  - split; [ reflexivity | apply contains_not_occurs; reflexivity ].
  - split; [ exact Ht | ].
    intros Hname. apply (occurs_inside "name" l name r) in Hname.
    rewrite <- Hr in Hname.
    destruct Hrest as [(pre & _ & Hnone) | (Hnone & ->)];
      contradiction (Hnone Hname).
Qed.

(** ** From a text to the file *)

Lemma contains_lower_name pre suf :
  Str.contains "name" (Str.lower (pre ++ "name" ++ suf)) = true.
Proof.
  rewrite !lower_app. apply contains_app_r, contains_app_l. reflexivity.
Qed.

Lemma close_then_end fmt st :
  inbound st = Running ->
  outbound st = Running ->
  run fmt [ FromOpenAI Closed; FromTwilio End_ ] st
  = set_inbound Returned
      (set_twilio_connected false
         (set_outbound Returned (set_openai_closed true st))).
Proof.
  intros Hin Hout. unfold run. cbn [fold_left]. unfold step at 2.
  rewrite Hin, Hout. cbn [send_to_twilio]. unfold step. simpl.
  rewrite Hin. reflexivity.
Qed.

(** X18: from the AI's words to the file system.  While the name is still
    ["Unknown Client"], a [response.content.done] text with a lower-case
    ["name"] in it, then the AI connection closing and the caller hanging
    up, store the transcript, with the line of that text last, in the
    file named after the portion of the text after its last ["name"]:
    stripped, spaces replaced by underscores and [_loan_conversation.txt]
    appended; provided [open] takes that name. *)
Theorem text_names_the_file fmt fs schedule response pre suf core :
  let st := run fmt schedule connected in
  let filename := Str.replace " " "_" core ++ "_loan_conversation.txt" in
  inbound st = Running ->
  outbound st = Running ->
  client_name st = Unknown_Client ->
  subscript response "type" = Ok (JStr "response.content.done") ->
  subscript response "content" = Ok (JStr (pre ++ "name" ++ suf)) ->
  ~ occurs "name" suf ->
  strips_to suf core ->
  fs filename = Ok tt ->
  files
    (handle_media_stream fmt fs
       (schedule
        ++ [ FromOpenAI (Message (Json response));
             FromOpenAI Closed; FromTwilio End_ ]))
  = [ (filename,
       conversation_log st ++ "AI: " ++ (pre ++ "name" ++ suf) ++ Str.newline) ].
Proof.
  intros st filename Hin Hout Hname Hty Hcontent Hsuf Hcore Hfs.
  assert (Hab : aborted st = false)
    by (unfold aborted; rewrite Hin; reflexivity).
  assert (Hget : py_get response "content" (JStr "")
                 = Ok (JStr (pre ++ "name" ++ suf))).
  { destruct (subscript_dict _ _ _ Hty) as [items ->].
    simpl in *. destruct (dict_lookup items "content"); [ | discriminate ].
    exact Hcontent. }
  set (text := pre ++ "name" ++ suf) in *.
  set (st0 := set_stdout
                (stdout st
                 ++ [ReceivedEvent (JStr "response.content.done") response])
                st).
  assert (Hstep : step fmt st (FromOpenAI (Message (Json response)))
                  = set_client_name core
                      (set_conversation_log
                         (conversation_log st0 ++ "AI: " ++ text ++ Str.newline)
                         (set_stdout (stdout st0 ++ [AiSays (JStr text)]) st0))).
  { destruct (step_typed fmt st response _ Hab Hout Hty) as [-> Hbody].
    cbn [send_to_twilio].
    rewrite Hbody, (content_done_pre response st Hty). fold st0.
    rewrite (record_content_sets_name fmt response text st0 Hname Hty Hget
               (contains_lower_name pre suf) suf);
      [ rewrite (strips_to_strip suf core Hcore); reflexivity | ].
    apply (split_last_occurrence (String.length pre) pre "" suf (le_n _)).
    apply not_occurs_contains, Hsuf. }
  set (st1 := step fmt st (FromOpenAI (Message (Json response)))) in *.
  assert (Hin1 : inbound st1 = Running) by (rewrite Hstep; exact Hin).
  assert (Hout1 : outbound st1 = Running) by (rewrite Hstep; exact Hout).
  assert (Hrun : run fmt
                   (schedule
                    ++ [ FromOpenAI (Message (Json response));
                         FromOpenAI Closed; FromTwilio End_ ]) connected
                 = set_inbound Returned
                     (set_twilio_connected false
                        (set_outbound Returned (set_openai_closed true st1)))).
  { rewrite run_app, run_cons. apply close_then_end; assumption. }
  pose proof (stored_when_returned fmt fs
                (schedule ++ [ FromOpenAI (Message (Json response));
                               FromOpenAI Closed; FromTwilio End_ ]))
    as Hstore.
  cbv zeta in Hstore. rewrite Hrun in Hstore.
  cbn [inbound outbound client_name conversation_log set_inbound
         set_twilio_connected set_outbound set_openai_closed] in Hstore.
  rewrite Hstep in Hstore.
  cbn [client_name conversation_log set_client_name set_conversation_log
         set_stdout] in Hstore.
  rewrite filename_of_replace in Hstore.
  exact (Hstore eq_refl eq_refl Hfs).
Qed.

Lemma text_names_the_file_witness :
  files
    (handle_media_stream py_format_atoms fs_flat
       ([ FromTwilio (Text (start_event "CA1")) ]
          ++ [ FromOpenAI (Message (content_done_event "My name is Asha Rao "));
               FromOpenAI Closed; FromTwilio End_ ]))
  = [ ("is_Asha_Rao_loan_conversation.txt",
       "AI: My name is Asha Rao " ++ Str.newline) ].
Proof.
  refine (text_names_the_file py_format_atoms fs_flat
            [ FromTwilio (Text (start_event "CA1")) ]
            (JObj [("type", JStr "response.content.done");
                   ("content", JStr "My name is Asha Rao ")])
            "My " " is Asha Rao " "is Asha Rao"
            eq_refl eq_refl eq_refl eq_refl eq_refl _ _ eq_refl).
  - apply contains_not_occurs. reflexivity.
  - exists " ", " ". repeat split.
Defined.

(** ** One coroutine without the other *)

(** X19: when an AI event has ended the loop of [send_to_twilio] with an
    exception, the AI connection is still open and [receive_from_twilio]
    goes on forwarding: the next [media] event is sent to the AI
    connection, whose answers nobody reads any more. *)
Theorem media_forwarded_after_outbound_failure fmt st m e st1 data payload :
  inbound st = Running ->
  outbound st = Running ->
  openai_closed st = false ->
  send_to_twilio_body fmt m st = (Raise e, st1) ->
  media_payload data = Some payload ->
  let st' := run fmt [ FromOpenAI (Message m); FromTwilio (Text (Json data)) ]
               st in
  outbound st' = Returned /\
  inbound st' = Running /\
  openai_sent st' = (openai_sent st ++ [audio_append payload])%list.
Proof.
  intros Hin Hout Hclosed Hbody Hpay st'. unfold st'.
  rewrite run_cons.
  destruct (step_message fmt st m) as (_ & H2 & H3 & H4).
  set (st2 := step fmt st (FromOpenAI (Message m))) in *.
  assert (Hout2 : outbound st2 = Returned).
  { unfold st2, step. rewrite Hin, Hout. simpl. rewrite Hbody. reflexivity. }
  change (run fmt [FromTwilio (Text (Json data))] st2)
    with (step fmt st2 (FromTwilio (Text (Json data)))).
  unfold step. rewrite H3, Hin. simpl.
  rewrite (receive_media data payload st2 Hpay) by congruence.
  simpl. rewrite H3, H4. auto.
Qed.

Lemma media_forwarded_after_outbound_failure_witness :
  let st' :=
    run py_format_atoms
      [ FromOpenAI (Message (Json (JObj [])));
        FromTwilio (Text (media_event "AAA=")) ] connected in
  outbound st' = Returned /\
  inbound st' = Running /\
  openai_sent st' = [ session_update; audio_append (JStr "AAA=") ].
Proof.
  apply (media_forwarded_after_outbound_failure py_format_atoms connected
           (Json (JObj [])) (KeyError "type") connected
           (JObj [("event", JStr "media");
                  ("media", JObj [("payload", JStr "AAA=")])])
           (JStr "AAA=")); reflexivity.
Defined.

(** X20: when the AI connection closes first, [send_to_twilio] returns
    but [receive_from_twilio] is not told: it keeps reading the telephony
    connection, and nothing is stored until that connection ends too. *)
Theorem ai_close_waits_for_telephony fmt fs schedule :
  let st := run fmt schedule connected in
  inbound st = Running ->
  outbound st = Running ->
  let final := handle_media_stream fmt fs (schedule ++ [FromOpenAI Closed]) in
  inbound final = Running /\
  outbound final = Returned /\
  openai_closed final = true /\
  stream_sid final = stream_sid st /\
  files final = [].
Proof.
  intros st Hin Hout final.
  assert (Hf : files st = [])
    by (unfold st; rewrite run_files; reflexivity).
  unfold final, handle_media_stream. rewrite run_app. fold st.
  change (run fmt [FromOpenAI Closed] st)
    with (step fmt st (FromOpenAI Closed)).
  unfold step. rewrite Hin, Hout. simpl. rewrite Hin. simpl.
  repeat split; assumption.
Qed.

Lemma ai_close_waits_for_telephony_witness :
  let final :=
    handle_media_stream py_format_atoms fs_flat
      ([ FromTwilio (Text (start_event "CA1")) ] ++ [ FromOpenAI Closed ]) in
  inbound final = Running /\
  outbound final = Returned /\
  openai_closed final = true /\
  stream_sid final = JStr "CA1" /\
  files final = [].
Proof.
  apply (ai_close_waits_for_telephony py_format_atoms fs_flat
           [ FromTwilio (Text (start_event "CA1")) ]); reflexivity.
Defined.

(** ** The transcript only grows *)

Lemma transcript_of_one text :
  transcript_of [text] = "AI: " ++ text ++ Str.newline.
Proof. simpl. rewrite ?append_nil_r. reflexivity. Qed.

Lemma record_content_grows fmt response st :
  exists texts,
    conversation_log (snd (record_content fmt response st))
    = conversation_log st ++ transcript_of texts.
Proof.
  unfold record_content, bind, eval, gets, print, modify, pass, ret.
  assert (Hsame : exists texts,
             conversation_log st = conversation_log st ++ transcript_of texts)
    by (exists []; simpl; rewrite append_nil_r; reflexivity).
  destruct (subscript response "type") as [type | e]; [ | exact Hsame ].
  destruct (py_eq type "response.content.done"); [ | exact Hsame ].
  destruct (py_get response "content" (JStr "")) as [ai_response | e];
    [ | exact Hsame ].
  exists [fstring fmt ai_response]. rewrite transcript_of_one. simpl.
  destruct (str_lower ai_response) as [lowered | e]; [ | reflexivity ].
  simpl.
  destruct (Str.contains "name" lowered
            && String.eqb (client_name st) Unknown_Client);
    [ | reflexivity ].
  simpl. destruct (str_split ai_response "name") as [pieces | e];
    [ | reflexivity ].
  simpl. destruct (py_last pieces); reflexivity.
Qed.

Lemma step_grows fmt st i :
  exists texts,
    conversation_log (step fmt st i)
    = conversation_log st ++ transcript_of texts.
Proof.
  assert (Hsame : exists texts,
             conversation_log st = conversation_log st ++ transcript_of texts)
    by (exists []; simpl; rewrite append_nil_r; reflexivity).
  assert (Hturn : forall o,
             exists texts,
               conversation_log (send_to_twilio fmt o st)
               = conversation_log st ++ transcript_of texts).
  { intros [m | ]; [ | exact Hsame ]. cbn [send_to_twilio].
    destruct (wire_typed m) as [(response & type & -> & Hty) | Hun].
    - rewrite (send_to_twilio_body_typed fmt response type st Hty).
      destruct (relay_frame_pre response st) as (_ & _ & Hlog).
      set (st3 := snd (forward_audio response _)) in *.
      destruct (record_content_grows fmt response st3) as [texts H].
      rewrite Hlog in H. exists texts.
      destruct (record_content fmt response st3) as [[[] | e] st4]; exact H.
    - destruct (send_to_twilio_body_untyped fmt m st Hun) as [e ->].
      exact Hsame. }
  unfold step.
  destruct (inbound st); destruct i as [t | o]; try destruct (outbound st);
    try exact Hsame;
    first [ apply Hturn
          | destruct (receive_from_twilio_frame t st) as (_ & -> & _);
            exact Hsame ].
Qed.

(** X21: the transcript is append-only and made of whole lines: whatever
    the connections deliver (events that raise included), what a state
    holds is kept as a prefix ever after, and the transcript of a call is
    at any moment a sequence of lines [AI: ...], each with its line feed. *)
Theorem transcript_append_only fmt fs schedule st :
  (exists texts,
      conversation_log (run fmt schedule st)
      = conversation_log st ++ transcript_of texts) /\
  (exists texts,
      conversation_log (handle_media_stream fmt fs schedule)
      = transcript_of texts).
Proof.
  assert (Hrun : forall s st0,
             exists texts,
               conversation_log (run fmt s st0)
               = conversation_log st0 ++ transcript_of texts).
  { induction s as [ | i s IH]; intros st0.
    - exists []. simpl. rewrite append_nil_r. reflexivity.
    - rewrite run_cons. destruct (IH (step fmt st0 i)) as [t2 H2].
      destruct (step_grows fmt st0 i) as [t1 H1].
      exists (t1 ++ t2)%list.
      rewrite H2, H1, transcript_of_app, append_assoc. reflexivity. }
  split; [ apply Hrun | ].
  destruct (Hrun schedule connected) as [texts H]. exists texts.
  destruct (handle_media_stream_frame fmt fs schedule) as (_ & _ & -> & _).
  exact H.
Qed.
